(** * Campus Exchange backend: the re-keying migration and the listing endpoints

    A shallow embedding of
    - [alembic/versions/b8f4c2a1d9e3_change_user_id_to_email_prefix.py],
      [alembic/versions/254ce896d541_enable_cascade_delete_on_notifications.py]
      and [alembic/versions/491b07444172_enable_cascade_delete_on_verifications.py]:
      the Alembic operations are a datatype [op], a migration is the list of
      operations its Python body issues, and [exec] gives each operation its
      effect on a small relational database (tables, rows, constraints);
    - [app/api/v1/listings.py]: the four mutating endpoints as functions on
      an explicit application state. *)

From stdpp Require Import base option list gmap strings pretty sorting.
From Stdlib Require Import ZArith Ascii String QArith_base.

Open Scope string_scope.
Open Scope Z_scope.
Open Scope list_scope.

(** ** Results of fallible steps *)

Inductive error :=
| UndefinedTable (table_name : string)
| UndefinedColumn (table_name column_name : string)
| DuplicateColumn (table_name column_name : string)
| UndefinedObject (name : string)
| DuplicateObject (name : string)
| NotNullViolation (table_name column_name : string)
| UniqueViolation (name : string)
| ForeignKeyViolation (name : string)
| InvalidForeignKey (name : string)
| DependentObjectsStillExist (table_name column_name : string)
| StringDataRightTruncation
| DatatypeMismatch
| UndefinedFunction
| CardinalityViolation
| SyntaxError.

Inductive result (A : Type) :=
| OK (a : A)
| Raise (e : error).
Arguments OK {A} a.
Arguments Raise {A} e.

#[global] Instance result_ret : MRet result := λ A a, OK a.
#[global] Instance result_bind : MBind result := λ A B f m,
  match m with
  | OK a => f a
  | Raise e => Raise e
  end.

Definition require (b : bool) (e : error) : result unit :=
  if b then OK tt else Raise e.

Definition is_OK {A} (r : result A) : bool :=
  match r with OK _ => true | Raise _ => false end.

(** ** Strings *)

(** The fields of [s] between occurrences of the one-character delimiter. *)
Fixpoint fields (delim : ascii) (s : string) : list string :=
  match s with
  | EmptyString => [EmptyString]
  | String a s' =>
      if Ascii.eqb a delim then EmptyString :: fields delim s'
      else match fields delim s' with
           | f :: fs => String a f :: fs
           | [] => [String a EmptyString]
           end
  end.

(** PostgreSQL's [SPLIT_PART(s, delim, n)] for a one-character delimiter and
    a field number [n >= 1]: the [n]-th field, the empty string when there
    are fewer than [n] fields. *)
Definition SPLIT_PART (s : string) (delim : ascii) (n : nat) : string :=
  default EmptyString (fields delim s !! (n - 1)%nat).

Fixpoint contains (a : ascii) (s : string) : bool :=
  match s with
  | EmptyString => false
  | String b s' => Ascii.eqb b a || contains a s'
  end.

(** ** The relational model *)

(** Column types the migrations mention: [sa.Integer()] and
    [sa.String(length=n)]. *)
Inductive sqltype :=
| Integer
| String_ (length : nat).

(** A stored value; SQL NULL is the absence of the column's key in a row. *)
Inductive value :=
| VInt (z : Z)
| VStr (s : string).

#[global] Instance sqltype_eq_dec : EqDecision sqltype.
Proof. solve_decision. Defined.
#[global] Instance value_eq_dec : EqDecision value.
Proof. solve_decision. Defined.

Record column := Column {
  col_type : sqltype;
  col_nullable : bool
}.

Record table := Table {
  tbl_columns : gmap string column;
  tbl_rows : list (gmap string value)
}.

Inductive constraint_def :=
| PrimaryKey (cols : list string)
| UniqueConstraint (cols : list string)
| ForeignKey (cols : list string) (referent : string)
             (remote_cols : list string) (ondelete : option string)
| Index (cols : list string) (unique : bool).

#[global] Instance constraint_def_eq_dec : EqDecision constraint_def.
Proof. solve_decision. Defined.

Record constraint := Constraint {
  con_name : string;
  con_table : string;
  con_def : constraint_def
}.

#[global] Instance constraint_eq_dec : EqDecision constraint.
Proof. solve_decision. Defined.

Record database := Database {
  db_tables : gmap string table;
  db_constraints : list constraint;
  db_sequences : list string
}.

(** *** Observations *)

Definition table_rows (d : database) (t : string) : list (gmap string value) :=
  match db_tables d !! t with
  | Some T => tbl_rows T
  | None => []
  end.

(** [SELECT c FROM t], in row order; [None] is NULL. *)
Definition column_values (d : database) (t c : string) : list (option value) :=
  (λ r : gmap string value, r !! c) <$> table_rows d t.

Definition column_of (d : database) (t c : string) : option column :=
  T ← db_tables d !! t; tbl_columns T !! c.

(** The constraint or index that [name] denotes on table [t]. *)
Definition find_constraint (d : database) (t name : string) : option constraint_def :=
  con_def <$>
    head (filter (λ k, con_table k = t ∧ con_name k = name) (db_constraints d)).

(** [Some od] when [name] is a foreign key of [t] with [ON DELETE od]
    ([od = None]: no action given). *)
Definition ondelete_of (d : database) (t name : string) : option (option string) :=
  match find_constraint d t name with
  | Some (ForeignKey _ _ _ od) => Some od
  | _ => None
  end.

(** *** Helpers of the executor *)

Definition get_table (d : database) (t : string) : result table :=
  match db_tables d !! t with
  | Some T => OK T
  | None => Raise (UndefinedTable t)
  end.

Definition get_column (t : string) (T : table) (c : string) : result column :=
  match tbl_columns T !! c with
  | Some col => OK col
  | None => Raise (UndefinedColumn t c)
  end.

Definition set_table (d : database) (t : string) (T : table) : database :=
  Database (<[t := T]> (db_tables d)) (db_constraints d) (db_sequences d).

Definition set_constraints (d : database) (ks : list constraint) : database :=
  Database (db_tables d) ks (db_sequences d).

Definition set_cell (c : string) (v : option value) (r : gmap string value)
  : gmap string value :=
  match v with
  | Some x => <[c := x]> r
  | None => delete c r
  end.

Definition same_kind (a b : sqltype) : bool :=
  match a, b with
  | Integer, Integer => true
  | String_ _, String_ _ => true
  | _, _ => false
  end.

(** Assignment of [v] to a column: NULL needs a nullable column, an integer
    an [Integer] column, a string a [String_ n] column with room for it.
    (PostgreSQL would cut excess trailing blanks instead of raising; strings
    ending in blanks beyond the declared length are outside this model.) *)
Definition store (t c : string) (col : column) (v : option value)
  : result (option value) :=
  match v, col_type col with
  | None, _ =>
      if col_nullable col then OK None else Raise (NotNullViolation t c)
  | Some (VInt _), Integer => OK v
  | Some (VStr s), String_ n =>
      if (String.length s <=? n)%nat then OK v
      else Raise StringDataRightTruncation
  | _, _ => Raise DatatypeMismatch
  end.

(** The key of a row under a list of columns; [None] when one is NULL. *)
Definition row_key (cols : list string) (r : gmap string value)
  : option (list value) :=
  mapM (λ c, r !! c) cols.

Definition unique_on (cols : list string) (rows : list (gmap string value)) : bool :=
  bool_decide (NoDup (omap (row_key cols) rows)).

Definition not_null_on (cols : list string) (rows : list (gmap string value)) : bool :=
  forallb (λ r, forallb (λ c, bool_decide (is_Some (r !! c))) cols) rows.

Definition has_columns (T : table) (cols : list string) : bool :=
  forallb (λ c, bool_decide (is_Some (tbl_columns T !! c))) cols.

Definition is_index_backed (k : constraint_def) : bool :=
  match k with
  | ForeignKey _ _ _ _ => false
  | _ => true
  end.

(** A new object's name must be free among the constraints of its table
    and, for objects backed by an index, among all index-backed objects. *)
Definition name_taken (d : database) (t name : string) (index_backed : bool) : bool :=
  existsb (λ k, bool_decide (con_name k = name) &&
                (bool_decide (con_table k = t) ||
                 (index_backed && is_index_backed (con_def k))))
          (db_constraints d).

Definition add_constraint (d : database) (k : constraint) : database :=
  set_constraints d (db_constraints d ++ [k]).

Definition rename_in (c c' : string) (cols : list string) : list string :=
  (λ x, if decide (x = c) then c' else x) <$> cols.

(** A column rename follows into every constraint that names the column. *)
Definition rename_constraint (t c c' : string) (k : constraint) : constraint :=
  let def := con_def k in
  let def :=
    if decide (con_table k = t) then
      match def with
      | PrimaryKey cols => PrimaryKey (rename_in c c' cols)
      | UniqueConstraint cols => UniqueConstraint (rename_in c c' cols)
      | ForeignKey cols r rc od => ForeignKey (rename_in c c' cols) r rc od
      | Index cols u => Index (rename_in c c' cols) u
      end
    else def in
  let def :=
    match def with
    | ForeignKey cols r rc od =>
        if decide (r = t) then ForeignKey cols r (rename_in c c' rc) od else def
    | _ => def
    end in
  Constraint (con_name k) (con_table k) def.

Definition def_cols (k : constraint_def) : list string :=
  match k with
  | PrimaryKey cols | UniqueConstraint cols | ForeignKey cols _ _ _ | Index cols _ => cols
  end.

Definition references (k : constraint) (t c : string) : bool :=
  match con_def k with
  | ForeignKey _ r rc _ => bool_decide (r = t) && bool_decide (c ∈ rc)
  | _ => false
  end.

Definition is_unique_key (t : string) (cols : list string) (k : constraint) : bool :=
  bool_decide (con_table k = t) &&
  match con_def k with
  | PrimaryKey cs | UniqueConstraint cs | Index cs true => bool_decide (cs = cols)
  | _ => false
  end.

Definition is_primary_key (t : string) (k : constraint) : bool :=
  bool_decide (con_table k = t) &&
  match con_def k with PrimaryKey _ => true | _ => false end.

(** ** Alembic operations *)

Inductive constraint_type := foreignkey | primary | unique_.

(** The SQL texts the migrations pass to [connection.execute] and
    [op.execute], one constructor per text (or per f-string template, with
    the interpolated names as arguments). *)
Inductive statement :=
(** [UPDATE users SET new_id = SPLIT_PART(email, '@', 1) WHERE new_id IS NULL] *)
| UPDATE_users_SET_new_id_prefix
(** [UPDATE {t} SET new_{c} = (SELECT SPLIT_PART(email, '@', 1) FROM users
     WHERE users.id = {t}.{c})], followed by [WHERE {c} IS NOT NULL] when
    [where_not_null] *)
| UPDATE_SET_new_fk (table_name column_name : string) (where_not_null : bool)
(** [CREATE SEQUENCE {name}] *)
| CREATE_SEQUENCE (name : string)
(** [UPDATE users SET new_id = {i} WHERE id = '{user_id}'] *)
| UPDATE_users_SET_new_id (i : Z) (user_id : string).

Inductive op :=
| add_column (table_name column_name : string) (type_ : sqltype) (nullable : bool)
| alter_column (table_name column_name : string)
               (nullable : option bool) (new_column_name : option string)
| create_unique_constraint (name table_name : string) (columns : list string)
| drop_constraint (name table_name : string) (type_ : constraint_type)
| drop_index (name table_name : string)
| drop_column (table_name column_name : string)
| create_primary_key (name table_name : string) (columns : list string)
| create_index (name table_name : string) (columns : list string) (unique : bool)
| create_foreign_key (name : option string) (source referent : string)
                     (local_cols remote_cols : list string) (ondelete : option string)
| execute (s : statement).

(** *** Statements *)

Definition SPLIT_PART_at_1 (v : option value) : result (option value) :=
  match v with
  | None => OK None
  | Some (VStr e) => OK (Some (VStr (SPLIT_PART e "@" 1)))
  | Some (VInt _) => Raise UndefinedFunction
  end.

(** The scalar subquery [(SELECT SPLIT_PART(email, '@', 1) FROM users WHERE
    users.id = k)] over the [(id, email)] pairs of [users]: NULL when no row
    matches (a NULL [k] matches none), an error when several do. *)
Definition email_prefix_of_user (users : list (option value * option value))
    (k : option value) : result (option value) :=
  match k with
  | None => OK None
  | Some kv =>
      match filter (λ p, p.1 = Some kv) users with
      | [] => OK None
      | [p] => SPLIT_PART_at_1 p.2
      | _ => Raise CardinalityViolation
      end
  end.

Definition update_rows (d : database) (t : string) (T : table)
    (f : gmap string value → result (gmap string value)) : result database :=
  rows ← mapM f (tbl_rows T);
  mret (set_table d t (Table (tbl_columns T) rows)).

(** Interpolating into a quoted SQL literal inside [sa.text] only yields the
    intended statement when the value has no quote, backslash or colon. *)
Definition plain_literal (s : string) : bool :=
  negb (contains "'" s || contains "\" s || contains ":" s).

Definition exec_statement (s : statement) (d : database) : result database :=
  match s with
  | UPDATE_users_SET_new_id_prefix =>
      T ← get_table d "users";
      cn ← get_column "users" T "new_id";
      _ ← get_column "users" T "email";
      update_rows d "users" T (λ r,
        match r !! "new_id" with
        | Some _ => OK r
        | None =>
            v ← SPLIT_PART_at_1 (r !! "email");
            v ← store "users" "new_id" cn v;
            mret (set_cell "new_id" v r)
        end)
  | UPDATE_SET_new_fk t c where_not_null =>
      T ← get_table d t;
      U ← get_table d "users";
      cc ← get_column t T c;
      cn ← get_column t T ("new_" +:+ c);
      uid ← get_column "users" U "id";
      _ ← get_column "users" U "email";
      _ ← require (same_kind (col_type uid) (col_type cc)) UndefinedFunction;
      let users := zip (column_values d "users" "id")
                       (column_values d "users" "email") in
      update_rows d t T (λ r,
        if where_not_null && bool_decide (r !! c = None) then OK r
        else
          v ← email_prefix_of_user users (r !! c);
          v ← store t ("new_" +:+ c) cn v;
          mret (set_cell ("new_" +:+ c) v r))
  | CREATE_SEQUENCE name =>
      _ ← require (bool_decide (name ∉ db_sequences d)) (DuplicateObject name);
      mret (Database (db_tables d) (db_constraints d) (name :: db_sequences d))
  | UPDATE_users_SET_new_id i user_id =>
      _ ← require (plain_literal user_id) SyntaxError;
      T ← get_table d "users";
      cn ← get_column "users" T "new_id";
      cid ← get_column "users" T "id";
      _ ← require (same_kind (col_type cid) (String_ 0)) DatatypeMismatch;
      update_rows d "users" T (λ r,
        if bool_decide (r !! "id" = Some (VStr user_id)) then
          v ← store "users" "new_id" cn (Some (VInt i));
          mret (set_cell "new_id" v r)
        else OK r)
  end.

(** *** Schema operations *)

Definition rename_key (c c' : string) (r : gmap string value) : gmap string value :=
  set_cell c' (r !! c) (delete c r).

Definition rename_column (d : database) (t c c' : string) : result database :=
  T ← get_table d t;
  col ← get_column t T c;
  _ ← require (negb (has_columns T [c'])) (DuplicateColumn t c');
  mret (Database
          (<[t := Table (<[c' := col]> (delete c (tbl_columns T)))
                        (rename_key c c' <$> tbl_rows T)]> (db_tables d))
          (rename_constraint t c c' <$> db_constraints d)
          (db_sequences d)).

Definition set_nullable (d : database) (t c : string) (b : bool) : result database :=
  T ← get_table d t;
  col ← get_column t T c;
  _ ← require (b || not_null_on [c] (tbl_rows T)) (NotNullViolation t c);
  mret (set_table d t (Table (<[c := Column (col_type col) b]> (tbl_columns T))
                             (tbl_rows T))).

Definition is_named (t name : string) (k : constraint) : bool :=
  bool_decide (con_table k = t) && bool_decide (con_name k = name).

Definition is_index (k : constraint) : bool :=
  match con_def k with Index _ _ => true | _ => false end.

(** The name PostgreSQL gives a foreign key created without one. *)
Definition fkey_name (t : string) (cols : list string) : string :=
  t +:+ "_" +:+ String.concat "_" cols +:+ "_fkey".

Definition fk_types_ok (T R : table) (cols rcols : list string) : bool :=
  bool_decide (List.length cols = List.length rcols) &&
  forallb (λ p, match tbl_columns T !! p.1, tbl_columns R !! p.2 with
                | Some a, Some b => same_kind (col_type a) (col_type b)
                | _, _ => false
                end) (zip cols rcols).

Definition fk_holds (cols rcols : list string)
    (rows ref_rows : list (gmap string value)) : bool :=
  forallb (λ r, match row_key cols r with
                | None => true
                | Some k => bool_decide (Some k ∈ (row_key rcols <$> ref_rows))
                end) rows.

Definition exec (o : op) (d : database) : result database :=
  match o with
  | add_column t c ty nullable =>
      T ← get_table d t;
      _ ← require (negb (has_columns T [c])) (DuplicateColumn t c);
      _ ← require (nullable || bool_decide (tbl_rows T = [])) (NotNullViolation t c);
      mret (set_table d t (Table (<[c := Column ty nullable]> (tbl_columns T))
                                 (delete c <$> tbl_rows T)))
  | alter_column t c nullable new_column_name =>
      d ← match nullable with
          | Some b => set_nullable d t c b
          | None => T ← get_table d t; _ ← get_column t T c; mret d
          end;
      match new_column_name with
      | Some c' => rename_column d t c c'
      | None => mret d
      end
  | create_unique_constraint name t cols =>
      T ← get_table d t;
      _ ← require (has_columns T cols) (UndefinedColumn t (String.concat "," cols));
      _ ← require (negb (name_taken d t name true)) (DuplicateObject name);
      _ ← require (unique_on cols (tbl_rows T)) (UniqueViolation name);
      mret (add_constraint d (Constraint name t (UniqueConstraint cols)))
  | drop_constraint name t _ =>
      _ ← get_table d t;
      _ ← require (existsb (λ k, is_named t name k && negb (is_index k))
                           (db_constraints d)) (UndefinedObject name);
      mret (set_constraints d
              (filter (λ k, ¬ (is_named t name k && negb (is_index k)))
                      (db_constraints d)))
  | drop_index name t =>
      _ ← require (existsb (λ k, is_named t name k && is_index k)
                           (db_constraints d)) (UndefinedObject name);
      mret (set_constraints d
              (filter (λ k, ¬ (is_named t name k && is_index k))
                      (db_constraints d)))
  | drop_column t c =>
      T ← get_table d t;
      _ ← get_column t T c;
      _ ← require (negb (existsb (λ k, references k t c) (db_constraints d)))
                  (DependentObjectsStillExist t c);
      mret (Database
              (<[t := Table (delete c (tbl_columns T)) (delete c <$> tbl_rows T)]>
                 (db_tables d))
              (filter (λ k, ¬ (con_table k = t ∧ c ∈ def_cols (con_def k)))
                      (db_constraints d))
              (db_sequences d))
  | create_primary_key name t cols =>
      T ← get_table d t;
      _ ← require (has_columns T cols) (UndefinedColumn t (String.concat "," cols));
      _ ← require (negb (name_taken d t name true)) (DuplicateObject name);
      _ ← require (negb (existsb (is_primary_key t) (db_constraints d)))
                  (DuplicateObject name);
      _ ← require (not_null_on cols (tbl_rows T)) (NotNullViolation t (String.concat "," cols));
      _ ← require (unique_on cols (tbl_rows T)) (UniqueViolation name);
      let columns' :=
        foldr (λ c m, alter (λ col, Column (col_type col) false) c m)
              (tbl_columns T) cols in
      mret (add_constraint (set_table d t (Table columns' (tbl_rows T)))
                           (Constraint name t (PrimaryKey cols)))
  | create_index name t cols unique =>
      T ← get_table d t;
      _ ← require (has_columns T cols) (UndefinedColumn t (String.concat "," cols));
      _ ← require (negb (name_taken d t name true)) (DuplicateObject name);
      _ ← require (negb unique || unique_on cols (tbl_rows T)) (UniqueViolation name);
      mret (add_constraint d (Constraint name t (Index cols unique)))
  | create_foreign_key name t referent cols rcols ondelete =>
      let name := default (fkey_name t cols) name in
      T ← get_table d t;
      R ← get_table d referent;
      _ ← require (has_columns T cols) (UndefinedColumn t (String.concat "," cols));
      _ ← require (has_columns R rcols) (UndefinedColumn referent (String.concat "," rcols));
      _ ← require (negb (name_taken d t name false)) (DuplicateObject name);
      _ ← require (fk_types_ok T R cols rcols) DatatypeMismatch;
      _ ← require (existsb (is_unique_key referent rcols) (db_constraints d))
                  (InvalidForeignKey name);
      _ ← require (fk_holds cols rcols (tbl_rows T) (tbl_rows R))
                  (ForeignKeyViolation name);
      mret (add_constraint d (Constraint name t (ForeignKey cols referent rcols ondelete)))
  | execute s => exec_statement s d
  end.

Fixpoint run (ops : list op) (d : database) : result database :=
  match ops with
  | [] => OK d
  | o :: ops' => d' ← exec o d; run ops' d'
  end.

(** ** Revision b8f4c2a1d9e3: change user ID to email prefix *)

Module Change_user_id_to_email_prefix.

Definition tables_with_user_fks : list (string * string) := [
  ("blocked_users", "user_id");
  ("blocked_users", "blocked_by");
  ("listings", "owner_id");
  ("notifications", "user_id");
  ("verifications", "user_id");
  ("chat_messages", "sender_id");
  ("chat_messages", "receiver_id");
  ("chat_rooms", "participant1_id");
  ("chat_rooms", "participant2_id");
  ("favorites", "user_id");
  ("messages", "sender_id");
  ("messages", "receiver_id");
  ("reports", "reporter_id");
  ("reports", "reported_user_id");
  ("reports", "reviewed_by");
  ("message_reactions", "user_id");
  ("admin_activity_log", "admin_id")
].

(** The columns the script treats as nullable ("These can be NULL"). *)
Definition can_be_null (column_name : string) : bool :=
  bool_decide (column_name ∈ ["reported_user_id"; "reviewed_by"; "admin_id"]).

(** The operations [upgrade()] issues, block by block in source order. *)
Definition upgrade_ops : list op :=
  (* lines 24-34 *)
  [ add_column "users" "new_id" (String_ 100) true;
    execute UPDATE_users_SET_new_id_prefix;
    alter_column "users" "new_id" (Some false) None;
    create_unique_constraint "uq_users_new_id" "users" ["new_id"] ]
  (* lines 56-58: add temporary string columns *)
  ++ ((λ '(table_name, column_name),
         add_column table_name ("new_" +:+ column_name) (String_ 100) true)
        <$> tables_with_user_fks)
  (* lines 60-79 *)
  ++ ((λ '(table_name, column_name),
         if can_be_null column_name
         then execute (UPDATE_SET_new_fk table_name column_name true)
         else execute (UPDATE_SET_new_fk table_name column_name false))
        <$> tables_with_user_fks)
  (* lines 81-97 *)
  ++ [ drop_constraint "blocked_users_user_id_fkey" "blocked_users" foreignkey;
       drop_constraint "blocked_users_blocked_by_fkey" "blocked_users" foreignkey;
       drop_constraint "listings_owner_id_fkey" "listings" foreignkey;
       drop_constraint "notifications_user_id_fkey" "notifications" foreignkey;
       drop_constraint "verifications_user_id_fkey" "verifications" foreignkey;
       drop_constraint "chat_messages_sender_id_fkey" "chat_messages" foreignkey;
       drop_constraint "chat_messages_receiver_id_fkey" "chat_messages" foreignkey;
       drop_constraint "chat_rooms_participant1_id_fkey" "chat_rooms" foreignkey;
       drop_constraint "chat_rooms_participant2_id_fkey" "chat_rooms" foreignkey;
       drop_constraint "favorites_user_id_fkey" "favorites" foreignkey;
       drop_constraint "messages_sender_id_fkey" "messages" foreignkey;
       drop_constraint "messages_receiver_id_fkey" "messages" foreignkey;
       drop_constraint "reports_reporter_id_fkey" "reports" foreignkey;
       drop_constraint "reports_reported_user_id_fkey" "reports" foreignkey;
       drop_constraint "reports_reviewed_by_fkey" "reports" foreignkey;
       drop_constraint "message_reactions_user_id_fkey" "message_reactions" foreignkey;
       drop_constraint "admin_activity_log_admin_id_fkey" "admin_activity_log" foreignkey ]
  (* lines 99-105 *)
  ++ mjoin ((λ '(table_name, column_name),
         drop_column table_name column_name ::
         alter_column table_name ("new_" +:+ column_name) None (Some column_name) ::
         (if negb (can_be_null column_name)
          then [ alter_column table_name column_name (Some false) None ]
          else []))
        <$> tables_with_user_fks)
  (* lines 107-113 *)
  ++ [ drop_constraint "users_pkey" "users" primary;
       drop_index "ix_users_id" "users";
       drop_column "users" "id";
       alter_column "users" "new_id" None (Some "id");
       create_primary_key "users_pkey" "users" ["id"];
       create_index "ix_users_id" "users" ["id"] true ]
  (* lines 115-131 *)
  ++ [ create_foreign_key (Some "blocked_users_user_id_fkey") "blocked_users" "users" ["user_id"] ["id"] (Some "CASCADE");
       create_foreign_key (Some "blocked_users_blocked_by_fkey") "blocked_users" "users" ["blocked_by"] ["id"] (Some "CASCADE");
       create_foreign_key (Some "listings_owner_id_fkey") "listings" "users" ["owner_id"] ["id"] None;
       create_foreign_key (Some "notifications_user_id_fkey") "notifications" "users" ["user_id"] ["id"] None;
       create_foreign_key (Some "verifications_user_id_fkey") "verifications" "users" ["user_id"] ["id"] None;
       create_foreign_key (Some "chat_messages_sender_id_fkey") "chat_messages" "users" ["sender_id"] ["id"] None;
       create_foreign_key (Some "chat_messages_receiver_id_fkey") "chat_messages" "users" ["receiver_id"] ["id"] None;
       create_foreign_key (Some "chat_rooms_participant1_id_fkey") "chat_rooms" "users" ["participant1_id"] ["id"] None;
       create_foreign_key (Some "chat_rooms_participant2_id_fkey") "chat_rooms" "users" ["participant2_id"] ["id"] None;
       create_foreign_key (Some "favorites_user_id_fkey") "favorites" "users" ["user_id"] ["id"] None;
       create_foreign_key (Some "messages_sender_id_fkey") "messages" "users" ["sender_id"] ["id"] None;
       create_foreign_key (Some "messages_receiver_id_fkey") "messages" "users" ["receiver_id"] ["id"] None;
       create_foreign_key (Some "reports_reporter_id_fkey") "reports" "users" ["reporter_id"] ["id"] None;
       create_foreign_key (Some "reports_reported_user_id_fkey") "reports" "users" ["reported_user_id"] ["id"] None;
       create_foreign_key (Some "reports_reviewed_by_fkey") "reports" "users" ["reviewed_by"] ["id"] None;
       create_foreign_key (Some "message_reactions_user_id_fkey") "message_reactions" "users" ["user_id"] ["id"] (Some "CASCADE");
       create_foreign_key (Some "admin_activity_log_admin_id_fkey") "admin_activity_log" "users" ["admin_id"] ["id"] None ].

Definition upgrade (d : database) : result database := run upgrade_ops d.

(** [ORDER BY id]: integers by value, strings bytewise, NULLs last. *)
Definition value_le (a b : option value) : Prop :=
  match a, b with
  | _, None => True
  | None, Some _ => False
  | Some (VInt x), Some (VInt y) => (x ≤ y)%Z
  | Some (VStr x), Some (VStr y) => String.leb x y
  | Some (VInt _), Some (VStr _) => True
  | Some (VStr _), Some (VInt _) => False
  end.

#[global] Instance value_le_dec : RelDecision value_le.
Proof.
  intros [[x|x]|] [[y|y]|]; simpl; apply _.
Defined.

(** [SELECT id FROM users ORDER BY id], fetched. *)
Definition SELECT_id_FROM_users_ORDER_BY_id (d : database) : result (list (option value)) :=
  T ← get_table d "users";
  _ ← get_column "users" T "id";
  mret (merge_sort value_le (column_values d "users" "id")).

(** How an f-string renders a fetched value. *)
Definition format_value (v : option value) : string :=
  match v with
  | Some (VStr s) => s
  | Some (VInt z) => pretty z
  | None => "None"
  end.

Definition downgrade (d : database) : result database :=
  (* lines 137-139 *)
  d ← run [ add_column "users" "new_id" Integer true;
            execute (CREATE_SEQUENCE "users_id_seq") ] d;
  (* lines 142-146 *)
  users ← SELECT_id_FROM_users_ORDER_BY_id d;
  d ← run (imap (λ i user_id,
                   execute (UPDATE_users_SET_new_id (Z.of_nat (S i)) (format_value user_id)))
                users) d;
  (* lines 148-158; lines 152-153 are a comment, no operation *)
  run [ alter_column "users" "new_id" (Some false) None;
        drop_constraint "users_pkey" "users" primary;
        drop_index "ix_users_id" "users";
        drop_column "users" "id";
        alter_column "users" "new_id" None (Some "id");
        create_primary_key "users_pkey" "users" ["id"];
        create_index "ix_users_id" "users" ["id"] false ] d.

End Change_user_id_to_email_prefix.

(** ** Revision 254ce896d541: enable cascade delete on notifications *)

Module Enable_cascade_delete_on_notifications.

Definition upgrade_ops : list op :=
  [ drop_constraint "notifications_user_id_fkey" "notifications" foreignkey;
    create_foreign_key None "notifications" "users" ["user_id"] ["id"] (Some "CASCADE") ].

Definition upgrade (d : database) : result database := run upgrade_ops d.

End Enable_cascade_delete_on_notifications.

(** ** Revision 491b07444172: enable cascade delete on verifications *)

Module Enable_cascade_delete_on_verifications.

Definition upgrade_ops : list op :=
  [ drop_constraint "verifications_user_id_fkey" "verifications" foreignkey;
    create_foreign_key (Some "verifications_user_id_fkey") "verifications" "users"
                       ["user_id"] ["id"] (Some "CASCADE") ].

Definition upgrade (d : database) : result database := run upgrade_ops d.

Definition downgrade_ops : list op :=
  [ drop_constraint "verifications_user_id_fkey" "verifications" foreignkey;
    create_foreign_key (Some "verifications_user_id_fkey") "verifications" "users"
                       ["user_id"] ["id"] None ].

Definition downgrade (d : database) : result database := run downgrade_ops d.

End Enable_cascade_delete_on_verifications.

(** ** A database at the revision before b8f4c2a1d9e3

    Test data: integer user ids, the seventeen foreign keys under the names
    the migration drops, and a few rows in each table. *)

Module Sample.

Definition int_col (nullable : bool) : column := Column Integer nullable.
Definition str_col (n : nat) (nullable : bool) : column := Column (String_ n) nullable.

Definition mk_table (cols : list (string * column))
    (rows : list (list (string * value))) : table :=
  Table (list_to_map cols) (list_to_map <$> rows).

Definition fk (t c : string) (ondelete : option string) : constraint :=
  Constraint (fkey_name t [c]) t (ForeignKey [c] "users" ["id"] ondelete).

Definition users : table :=
  mk_table [("id", int_col false); ("email", str_col 255 false); ("is_verified", int_col false)]
    [ [("id", VInt 1); ("email", VStr "alice@uni.edu"); ("is_verified", VInt 1)];
      [("id", VInt 2); ("email", VStr "bob.k@college.edu"); ("is_verified", VInt 0)];
      [("id", VInt 5); ("email", VStr "carol@cuiatk.edu.pk"); ("is_verified", VInt 1)] ].

Definition two_fk_table (a b : string) (rows : list (Z * Z * Z)) : table :=
  mk_table [("id", int_col false); (a, int_col false); (b, int_col false)]
    ((λ '(i, x, y), [("id", VInt i); (a, VInt x); (b, VInt y)]) <$> rows).

Definition one_fk_table (a : string) (rows : list (Z * Z)) : table :=
  mk_table [("id", int_col false); (a, int_col false)]
    ((λ '(i, x), [("id", VInt i); (a, VInt x)]) <$> rows).

Definition reports : table :=
  mk_table [("id", int_col false); ("reporter_id", int_col false);
            ("reported_user_id", int_col true); ("reviewed_by", int_col true)]
    [ [("id", VInt 1); ("reporter_id", VInt 2); ("reported_user_id", VInt 1)];
      [("id", VInt 2); ("reporter_id", VInt 5); ("reported_user_id", VInt 2);
       ("reviewed_by", VInt 1)] ].

Definition admin_activity_log : table :=
  mk_table [("id", int_col false); ("admin_id", int_col true)]
    [ [("id", VInt 1); ("admin_id", VInt 1)]; [("id", VInt 2)] ].

Definition prior : database :=
  Database
    (list_to_map [
       ("users", users);
       ("blocked_users", two_fk_table "user_id" "blocked_by" [(1, 2, 1)]);
       ("listings", one_fk_table "owner_id" [(10, 1); (11, 5); (12, 1)]);
       ("notifications", one_fk_table "user_id" [(1, 1); (2, 2)]);
       ("verifications", one_fk_table "user_id" [(1, 5)]);
       ("chat_messages", two_fk_table "sender_id" "receiver_id" [(1, 1, 2); (2, 2, 1)]);
       ("chat_rooms", two_fk_table "participant1_id" "participant2_id" [(1, 1, 2)]);
       ("favorites", one_fk_table "user_id" [(1, 2)]);
       ("messages", two_fk_table "sender_id" "receiver_id" [(1, 5, 1)]);
       ("reports", reports);
       ("message_reactions", one_fk_table "user_id" [(1, 1)]);
       ("admin_activity_log", admin_activity_log) ])
    ([ Constraint "users_pkey" "users" (PrimaryKey ["id"]);
       Constraint "ix_users_id" "users" (Index ["id"] false);
       Constraint "ix_users_email" "users" (Index ["email"] true) ]
     ++ [ fk "blocked_users" "user_id" (Some "CASCADE");
          fk "blocked_users" "blocked_by" (Some "CASCADE");
          fk "listings" "owner_id" None;
          fk "notifications" "user_id" None;
          fk "verifications" "user_id" None;
          fk "chat_messages" "sender_id" None;
          fk "chat_messages" "receiver_id" None;
          fk "chat_rooms" "participant1_id" None;
          fk "chat_rooms" "participant2_id" None;
          fk "favorites" "user_id" None;
          fk "messages" "sender_id" None;
          fk "messages" "receiver_id" None;
          fk "reports" "reporter_id" None;
          fk "reports" "reported_user_id" None;
          fk "reports" "reviewed_by" None;
          fk "message_reactions" "user_id" (Some "CASCADE");
          fk "admin_activity_log" "admin_id" None ])
    [].

End Sample.

(** * The listing endpoints ([app/api/v1/listings.py]) *)

Module Listings.

(** ** Python strings *)

(** [str.isspace] on one character, characters read as code points below
    256: tab to carriage return, the four separators 28-31, space, NEL and
    the no-break space. *)
Definition isspace (a : ascii) : bool :=
  let n := nat_of_ascii a in
  ((9 <=? n) && (n <=? 13) || (28 <=? n) && (n <=? 32)
   || (n =? 133) || (n =? 160))%nat.

Fixpoint lstrip (s : string) : string :=
  match s with
  | String a s' => if isspace a then lstrip s' else s
  | EmptyString => EmptyString
  end.

Definition reverse_string (s : string) : string :=
  string_of_list_ascii (rev (list_ascii_of_string s)).

(** [s.strip()] *)
Definition strip (s : string) : string :=
  reverse_string (lstrip (reverse_string (lstrip s))).

(** Truth value of a string: non-empty. *)
Definition truthy (s : string) : bool :=
  match s with EmptyString => false | _ => true end.

(** Every character is whitespace (so also: the string is empty). *)
Definition whitespace_only (s : string) : bool :=
  forallb isspace (list_ascii_of_string s).

(** ** Data *)

(** [func.to_tsvector(config, text)], the SQL expression assigned to
    [search_vector]. *)
Inductive tsvector :=
| to_tsvector (config text : string).

Record User := {
  User_id : string;
  is_verified : bool
}.

(** A field of a request body: never sent, sent as [null], or sent with a
    value. *)
Inductive field (A : Type) :=
| Unset
| Null
| Value (v : A).
Arguments Unset {A}.
Arguments Null {A}.
Arguments Value {A} v.

(** Modelled from the spec: [app/schemas/listing.py] is not among the
    sources. [ListingUpdate] is taken to have the five optional fields that
    [update_listing] handles, [ListingStatusPatch] the one field [status]
    that [patch_status] reads. *)
Record ListingUpdate := {
  lu_title : field string;
  lu_description : field string;
  lu_category : field string;
  lu_price : field Q;
  lu_images : field (list string)
}.

Record ListingStatusPatch := {
  lsp_status : string
}.

(** [settings]: the two fields [create_listing] reads. *)
Record Settings := {
  STORAGE_BACKEND : string;
  S3_BUCKET : option string
}.

(** Validation of [STORAGE_BACKEND: Literal["LOCAL", "S3"] = "LOCAL"] when
    [Settings()] is built from the environment: the default when the
    variable is absent, a validation error for any other string. *)
Definition validate_STORAGE_BACKEND (env_value : option string) : option string :=
  match env_value with
  | None => Some "LOCAL"
  | Some v => if bool_decide (v ∈ ["LOCAL"; "S3"]) then Some v else None
  end.

Definition Settings_init (env : gmap string string) : option Settings :=
  backend ← validate_STORAGE_BACKEND (env !! "STORAGE_BACKEND");
  Some {| STORAGE_BACKEND := backend; S3_BUCKET := env !! "S3_BUCKET" |}.

(** Modelled from the spec: [app/services/notification_service.py] is not
    among the sources; the spec only says that users receive notifications.
    A call of [NotificationService.notify_listing_created(db, obj, user.id)]
    or [notify_listing_updated] is recorded as an event. *)
Inductive notification :=
| notify_listing_created (listing : Z) (user : string)
| notify_listing_updated (listing : Z) (user : string).

Inductive response (A : Type) :=
| Return (a : A)
| HTTPException (status_code : nat) (detail : string).
Arguments Return {A} a.
Arguments HTTPException {A} status_code detail.

Section Endpoints.

(** Python floats and [float(Decimal)] are left abstract; a [Decimal] is
    its rational value. *)
Context {pyfloat : Type}.
Variable float : Q → pyfloat.

(** An uploaded file ([UploadFile]) and the helpers of [app/utils/storage.py],
    which is not among the sources: each is taken as a function of its
    arguments. *)
Context {UploadFile : Type}.
Variable filename : UploadFile → string.
Variable save_upload : UploadFile → string → string.
Variable gen_object_key : string → string → string.
Variable public_url_for_key : string → string.

Record Listing := {
  Listing_id : Z;
  title : string;
  description : string;
  category : string;
  price : pyfloat;
  images : list string;
  owner_id : string;
  status : string;
  search_vector : tsvector
}.

(** Values in a dumped request body or on a listing attribute. *)
Inductive pyvalue :=
| Str (s : string)
| Dec (q : Q)
| Float (f : pyfloat)
| StrList (l : list string)
| Int (z : Z)
| TsVector (v : tsvector).

(** The session's view of the database, and what the endpoints sent out. *)
Record State := {
  listings : gmap Z Listing;
  next_listing_id : Z;
  notifications : list notification;
  s3_objects : list (option string * string)
}.

(** ** [create_listing] *)

Definition search_text (title description category : string) : string :=
  title +:+ " " +:+ description +:+ " " +:+ category.

Definition create_listing (settings : Settings)
    (title description category : string) (price : Q)
    (images : option (list UploadFile)) (user : User) (st : State)
  : response (Listing * State) :=
  if negb (is_verified user) then HTTPException 403 "User must be verified"
  else
    let files := default [] images in
    let uploaded : option (list string * list (option string * string)) :=
      if bool_decide (STORAGE_BACKEND settings = "LOCAL") then
        Some ((λ f, save_upload f "listings") <$> files, [])
      else if bool_decide (STORAGE_BACKEND settings = "S3") then
        let keys := (λ f, gen_object_key "listings" (filename f)) <$> files in
        Some (public_url_for_key <$> keys, (λ key, (S3_BUCKET settings, key)) <$> keys)
      else None in
    match uploaded with
    | None => HTTPException 500 "Invalid storage backend"
    | Some (urls, objects) =>
        let obj := {|
          Listing_id := next_listing_id st;
          title := title;
          description := description;
          category := category;
          price := float price;
          images := urls;
          owner_id := User_id user;
          status := "ACTIVE";
          search_vector := to_tsvector "english" (search_text title description category)
        |} in
        Return (obj, {|
          listings := <[Listing_id obj := obj]> (listings st);
          next_listing_id := next_listing_id st + 1;
          notifications := notifications st
                           ++ [notify_listing_created (Listing_id obj) (User_id user)];
          s3_objects := s3_objects st ++ objects
        |})
    end.

(** ** [get_listing] *)

Definition get_listing (listing_id : Z) (st : State) : response Listing :=
  match listings st !! listing_id with
  | None => HTTPException 404 "Listing not found"
  | Some obj => Return obj
  end.

(** ** [update_listing] *)

Definition dump_field {A} (name : string) (wrap : A → pyvalue) (f : field A)
  : option (string * pyvalue) :=
  match f with
  | Value v => Some (name, wrap v)
  | _ => None
  end.

(** [payload.model_dump(exclude_unset=True, exclude_none=True)] *)
Definition model_dump (payload : ListingUpdate) : list (string * pyvalue) :=
  omap (λ x, x) [
    dump_field "title" Str (lu_title payload);
    dump_field "description" Str (lu_description payload);
    dump_field "category" Str (lu_category payload);
    dump_field "price" Dec (lu_price payload);
    dump_field "images" StrList (lu_images payload)
  ].

Definition positive (q : Q) : bool := (0 <? Qnum q)%Z.

(** One turn of the loop over [update_data.items()]: the entry that goes
    into [filtered_update_data], if any.  The price test [value is not None]
    always holds here, [None] values having been excluded by the dump. *)
Definition filter_item (item : string * pyvalue) : option (string * pyvalue) :=
  match item with
  | (name, Str value) =>
      if bool_decide (name = "title") && truthy value && truthy (strip value)
      then Some (name, Str (strip value))
      else if bool_decide (name = "description") && truthy value && truthy (strip value)
      then Some (name, Str (strip value))
      else if bool_decide (name = "category") && truthy value && truthy (strip value)
      then Some (name, Str (strip value))
      else None
  | (name, Dec value) =>
      if bool_decide (name = "price") && positive value
      then Some (name, Float (float value))
      else None
  | (name, StrList value) =>
      if bool_decide (name = "images") then Some (name, StrList value) else None
  | _ => None
  end.

Definition filtered_update_data (payload : ListingUpdate) : list (string * pyvalue) :=
  omap filter_item (model_dump payload).

Definition set_search_vector (obj : Listing) (v : tsvector) : Listing :=
  {| Listing_id := Listing_id obj; title := title obj;
     description := description obj; category := category obj;
     price := price obj; images := images obj; owner_id := owner_id obj;
     status := status obj; search_vector := v |}.

Definition set_status (obj : Listing) (v : string) : Listing :=
  {| Listing_id := Listing_id obj; title := title obj;
     description := description obj; category := category obj;
     price := price obj; images := images obj; owner_id := owner_id obj;
     status := v; search_vector := search_vector obj |}.

(** [setattr(obj, field, value)] for the entries the filter lets through. *)
Definition setattr (obj : Listing) (item : string * pyvalue) : Listing :=
  let with_fields t d c p i :=
    {| Listing_id := Listing_id obj; title := t; description := d;
       category := c; price := p; images := i; owner_id := owner_id obj;
       status := status obj; search_vector := search_vector obj |} in
  match item with
  | (name, Str v) =>
      if bool_decide (name = "title") then
        with_fields v (description obj) (category obj) (price obj) (images obj)
      else if bool_decide (name = "description") then
        with_fields (title obj) v (category obj) (price obj) (images obj)
      else if bool_decide (name = "category") then
        with_fields (title obj) (description obj) v (price obj) (images obj)
      else obj
  | (name, Float v) =>
      if bool_decide (name = "price") then
        with_fields (title obj) (description obj) (category obj) v (images obj)
      else obj
  | (name, StrList v) =>
      if bool_decide (name = "images") then
        with_fields (title obj) (description obj) (category obj) (price obj) v
      else obj
  | _ => obj
  end.

(** [getattr(obj, name)] over the columns of a listing. *)
Definition getattr (obj : Listing) (name : string) : option pyvalue :=
  if bool_decide (name = "id") then Some (Int (Listing_id obj))
  else if bool_decide (name = "title") then Some (Str (title obj))
  else if bool_decide (name = "description") then Some (Str (description obj))
  else if bool_decide (name = "category") then Some (Str (category obj))
  else if bool_decide (name = "price") then Some (Float (price obj))
  else if bool_decide (name = "images") then Some (StrList (images obj))
  else if bool_decide (name = "owner_id") then Some (Str (owner_id obj))
  else if bool_decide (name = "status") then Some (Str (status obj))
  else if bool_decide (name = "search_vector") then Some (TsVector (search_vector obj))
  else None.

Definition touches_text (data : list (string * pyvalue)) : bool :=
  existsb (λ name, bool_decide (name ∈ data.*1)) ["title"; "description"; "category"].

(** [db.commit(); db.refresh(obj)] for the row with primary key [key]. *)
Definition commit (st : State) (key : Z) (obj : Listing) : State :=
  {| listings := <[key := obj]> (listings st);
     next_listing_id := next_listing_id st;
     notifications := notifications st;
     s3_objects := s3_objects st |}.

Definition notify (st : State) (n : notification) : State :=
  {| listings := listings st;
     next_listing_id := next_listing_id st;
     notifications := notifications st ++ [n];
     s3_objects := s3_objects st |}.

Definition update_listing (listing_id : Z) (payload : ListingUpdate)
    (user : User) (st : State) : response (Listing * State) :=
  match listings st !! listing_id with
  | None => HTTPException 404 "Listing not found"
  | Some obj =>
      if negb (bool_decide (owner_id obj = User_id user))
      then HTTPException 403 "Not owner"
      else if negb (is_verified user)
      then HTTPException 403 "User must be verified"
      else
        let filtered := filtered_update_data payload in
        let obj := foldl setattr obj filtered in
        let obj :=
          if touches_text filtered
          then set_search_vector obj
                 (to_tsvector "english"
                    (search_text (title obj) (description obj) (category obj)))
          else obj in
        let st := commit st listing_id obj in
        let st :=
          match filtered with
          | [] => st
          | _ => notify st (notify_listing_updated (Listing_id obj) (User_id user))
          end in
        Return (obj, st)
  end.

(** ** [patch_status] *)

Definition patch_status (listing_id : Z) (payload : ListingStatusPatch)
    (user : User) (st : State) : response (Listing * State) :=
  match listings st !! listing_id with
  | None => HTTPException 404 "Listing not found"
  | Some obj =>
      if negb (bool_decide (owner_id obj = User_id user))
      then HTTPException 403 "Not owner"
      else if negb (bool_decide (lsp_status payload ∈ ["ACTIVE"; "SOLD"; "ARCHIVED"]))
      then HTTPException 422 "Invalid status"
      else
        let obj := set_status obj (lsp_status payload) in
        Return (obj, commit st listing_id obj)
  end.

(** ** [delete_listing] *)

Definition delete_listing (listing_id : Z) (user : User) (st : State)
  : response (unit * State) :=
  match listings st !! listing_id with
  | None => HTTPException 404 "Listing not found"
  | Some obj =>
      if negb (bool_decide (owner_id obj = User_id user))
      then HTTPException 403 "Not owner"
      else if negb (is_verified user)
      then HTTPException 403 "User must be verified"
      else
        Return (tt, {| listings := delete listing_id (listings st);
                       next_listing_id := next_listing_id st;
                       notifications := notifications st;
                       s3_objects := s3_objects st |})
  end.

(** A listing whose [search_vector] is the one computed from its own
    title, description and category. *)
Definition search_vector_current (obj : Listing) : Prop :=
  search_vector obj
  = to_tsvector "english" (search_text (title obj) (description obj) (category obj)).

End Endpoints.



(** *** Test data: floats as rationals, uploads as file names *)

Definition bike : @Listing Q := {|
  Listing_id := 7;
  title := "Blue bike";
  description := "City bike, 21 gears";
  category := "sports";
  price := 120 # 1;
  images := ["/uploads/listings/bike.jpg"];
  owner_id := "alice";
  status := "ACTIVE";
  search_vector := to_tsvector "english" "Blue bike City bike, 21 gears sports"
|}.

Definition sample_state : @State Q := {|
  listings := {[ 7 := bike ]};
  next_listing_id := 8;
  notifications := [];
  s3_objects := []
|}.

Definition alice : User := {| User_id := "alice"; is_verified := true |}.
Definition alice_unverified : User := {| User_id := "alice"; is_verified := false |}.
Definition bob : User := {| User_id := "bob.k"; is_verified := true |}.

(** The endpoints with floats as rationals and an upload as its file name. *)
Definition create_listing_Q :=
  create_listing (λ q : Q, q) (λ f : string, f)
    (λ f subdir, "/uploads/" +:+ subdir +:+ "/" +:+ f)
    (λ subdir name, subdir +:+ "/" +:+ name)
    (λ key, "https://bucket.s3.amazonaws.com/" +:+ key).
Definition update_listing_Q := update_listing (λ q : Q, q).

Definition no_update : ListingUpdate := {|
  lu_title := Unset; lu_description := Unset; lu_category := Unset;
  lu_price := Unset; lu_images := Unset
|}.

Definition retitle (t : string) : ListingUpdate := {|
  lu_title := Value t; lu_description := Unset; lu_category := Unset;
  lu_price := Unset; lu_images := Unset
|}.

End Listings.

(** * Settings and start-up

    [app/core/config.py], and the admin id of [create_single_admin] in
    [app/main.py]. A setting is the string the environment gives it. *)

Module Config.
Import Listings.



(** [s.startswith(p)] *)
Definition startswith (s p : string) : bool := String.prefix p s.

(** [s[n:]] *)
Fixpoint skip (n : nat) (s : string) : string :=
  match n, s with
  | O, _ => s
  | S n', String _ s' => skip n' s'
  | S _, EmptyString => EmptyString
  end.

(** [s.replace(old, new, 1)]: the leftmost occurrence of [old] replaced. *)
Fixpoint replace_first (old new s : string) : string :=
  match s with
  | EmptyString => if startswith s old then new else EmptyString
  | String a s' =>
      if startswith s old then new +:+ skip (String.length old) s
      else String a (replace_first old new s')
  end.

(** The property [Settings.SQLALCHEMY_DATABASE_URI]. *)
Definition SQLALCHEMY_DATABASE_URI (DATABASE_URL : string) : string :=
  let uri := DATABASE_URL in
  if startswith uri "postgres://"
  then replace_first "postgres://" "postgresql://" uri
  else uri.







End Config.

(** ** The effect of an operation on the list of constraints

    An operation that succeeds leaves [omap (survive o) ks ++ creates o]:
    each existing constraint is kept, renamed or dropped on its own, and
    new ones are appended. *)

Definition survive (o : op) (k : constraint) : option constraint :=
  match o with
  | drop_constraint n t _ =>
      if is_named t n k && negb (is_index k) then None else Some k
  | drop_index n t =>
      if is_named t n k && is_index k then None else Some k
  | drop_column t c =>
      if bool_decide (con_table k = t ∧ c ∈ def_cols (con_def k)) then None
      else Some k
  | alter_column t c _ (Some c') => Some (rename_constraint t c c' k)
  | _ => Some k
  end.

Definition creates (o : op) : list constraint :=
  match o with
  | create_unique_constraint n t cs => [Constraint n t (UniqueConstraint cs)]
  | create_primary_key n t cs => [Constraint n t (PrimaryKey cs)]
  | create_index n t cs u => [Constraint n t (Index cs u)]
  | create_foreign_key n t r cs rcs od =>
      [Constraint (default (fkey_name t cs) n) t (ForeignKey cs r rcs od)]
  | _ => []
  end.

Fixpoint survive_all (ops : list op) (k : constraint) : option constraint :=
  match ops with
  | [] => Some k
  | o :: ops' => survive o k ≫= survive_all ops'
  end.

(** What is left at the end of the constraints the operations create. *)
Fixpoint created_by (ops : list op) : list constraint :=
  match ops with
  | [] => []
  | o :: ops' => omap (survive_all ops') (creates o) ++ created_by ops'
  end.

Definition renames_in (t : string) (o : op) : bool :=
  match o with
  | alter_column t' _ _ (Some _) => bool_decide (t' = t)
  | _ => false
  end.

Definition is_drop_column_of (t c : string) (o : op) : bool :=
  match o with
  | drop_column t' c' => bool_decide (t' = t ∧ c' = c)
  | _ => false
  end.

Definition keeps_constraints (o : op) : bool :=
  match o with
  | drop_constraint _ _ _ | drop_index _ _ | drop_column _ _
  | alter_column _ _ _ (Some _) => false
  | _ => true
  end.

(** ** Summaries used in the statements *)

(** The [ON DELETE] action that [upgrade_ops] (source lines 115-131) gives
    the foreign key it creates on [(t, c)]: [CASCADE] on three of them, none
    on the others. *)
Definition written_ondelete (t c : string) : option string :=
  if bool_decide ((t, c) ∈ [("blocked_users", "user_id");
                            ("blocked_users", "blocked_by");
                            ("message_reactions", "user_id")])
  then Some "CASCADE" else None.

Definition from_OK (r : result database) : database :=
  match r with
  | OK d => d
  | Raise _ => Database ∅ [] []
  end.

(** The sample database after [upgrade]. *)
Definition upgraded_sample : database :=
  from_OK (Change_user_id_to_email_prefix.upgrade Sample.prior).

(** The sample database after the two cascade-delete migrations, and after
    [upgrade] on top of them. *)
Definition cascaded_sample : database :=
  from_OK (Enable_cascade_delete_on_notifications.upgrade Sample.prior
           ≫= Enable_cascade_delete_on_verifications.upgrade).

Definition upgraded_cascaded_sample : database :=
  from_OK (Change_user_id_to_email_prefix.upgrade cascaded_sample).

(** The upgraded sample with its foreign keys removed by hand, the one way
    to get [downgrade] past its [drop_column('users', 'id')]. *)
Definition upgraded_sample_without_fks : database :=
  set_constraints upgraded_sample
    (filter (λ k, is_index_backed (con_def k)) (db_constraints upgraded_sample)).

(** ** Footprints

    [touches o t c]: operation [o] may change the values stored in column
    [c] of table [t]. *)

Definition touches (o : op) (t c : string) : bool :=
  match o with
  | add_column t' c' _ _ | drop_column t' c' => bool_decide (t' = t ∧ c' = c)
  | alter_column t' c' _ (Some c'') => bool_decide (t' = t ∧ (c' = c ∨ c'' = c))
  | execute UPDATE_users_SET_new_id_prefix
  | execute (UPDATE_users_SET_new_id _ _) => bool_decide ("users" = t ∧ "new_id" = c)
  | execute (UPDATE_SET_new_fk t' c' _) => bool_decide (t' = t ∧ "new_" +:+ c' = c)
  | _ => false
  end.

(** [touches_constraint o t name]: operation [o] may change what the name
    [name] denotes among the constraints and indexes of table [t]. A column
    rename is counted against every constraint, a dropped column against
    every constraint of its table. *)
Definition touches_constraint (o : op) (t name : string) : bool :=
  match o with
  | create_unique_constraint n t' _ | create_primary_key n t' _
  | create_index n t' _ _ | drop_constraint n t' _ | drop_index n t' =>
      bool_decide (t' = t ∧ n = name)
  | create_foreign_key n t' _ cs _ _ =>
      bool_decide (t' = t ∧ default (fkey_name t' cs) n = name)
  | drop_column t' _ => bool_decide (t' = t)
  | alter_column _ _ _ (Some _) => true
  | _ => false
  end.

(** The foreign keys a list of operations creates, under the names they get. *)
Definition foreign_keys_created (ops : list op) : list constraint :=
  omap (λ o, match o with
             | create_foreign_key n t r cs rcs od =>
                 Some (Constraint (default (fkey_name t cs) n) t (ForeignKey cs r rcs od))
             | _ => None
             end) ops.


(** *** The steps of the re-keying, as classes of operations *)

Definition is_fk_drop (o : op) : bool :=
  match o with drop_constraint _ _ foreignkey => true | _ => false end.

Definition is_backfill (o : op) : bool :=
  match o with
  | execute UPDATE_users_SET_new_id_prefix
  | execute (UPDATE_SET_new_fk _ _ _) => true
  | _ => false
  end.

(** The backfill of the derived values of column [c] of table [t]. *)
Definition is_backfill_of (t c : string) (o : op) : bool :=
  match o with
  | execute (UPDATE_SET_new_fk t' c' _) => bool_decide (t' = t ∧ c' = c)
  | _ => false
  end.

(** Replacing a column by its [new_] twin: the drop and the rename. *)
Definition is_column_swap (o : op) : bool :=
  match o with
  | drop_column _ _ | alter_column _ _ None (Some _) => true
  | _ => false
  end.

(** The swap of the primary key of [users] (source lines 107-113). *)
Definition is_primary_key_swap (o : op) : bool :=
  match o with
  | drop_constraint _ t primary | create_primary_key _ t _
  | drop_index _ t | create_index _ t _ _ | drop_column t _
  | alter_column t _ None (Some _) => bool_decide (t = "users")
  | _ => false
  end.

Definition is_drop_of (name t : string) (o : op) : bool :=
  match o with
  | drop_constraint n' t' _ => bool_decide (n' = name ∧ t' = t)
  | _ => false
  end.

Definition is_fk_create (o : op) : bool :=
  match o with create_foreign_key _ _ _ _ _ _ => true | _ => false end.

(** Every operation of class [p] comes before every operation of class [q]. *)
Definition precedes (p q : op → bool) (ops : list op) : Prop :=
  ∀ i j oi oj, ops !! i = Some oi → ops !! j = Some oj →
               p oi = true → q oj = true → (i < j)%nat.

Fixpoint all_before (p q : op → bool) (ops : list op) : bool :=
  match ops with
  | [] => true
  | o :: ops' =>
      (if q o then negb (p o) && forallb (λ o', negb (p o')) ops' else true)
      && all_before p q ops'
  end.

(** The operations up to the last one that satisfies [p], that one, and the
    ones after it. *)
Fixpoint split_last (p : op → bool) (ops : list op)
  : option (list op * op * list op) :=
  match ops with
  | [] => None
  | o :: ops' =>
      match split_last p ops' with
      | Some (pre, o', post) => Some (o :: pre, o', post)
      | None => if p o then Some ([], o, ops') else None
      end
  end.

(** The columns whose values an operation may change, as a list. *)
Definition footprint (o : op) : list (string * string) :=
  match o with
  | add_column t c _ _ | drop_column t c => [(t, c)]
  | alter_column t c _ (Some c') => [(t, c); (t, c')]
  | execute UPDATE_users_SET_new_id_prefix
  | execute (UPDATE_users_SET_new_id _ _) => [("users", "new_id")]
  | execute (UPDATE_SET_new_fk t c _) => [(t, "new_" +:+ c)]
  | _ => []
  end.

(** The columns [upgrade] works on: the old and new key of [users], the
    seventeen referencing columns and their [new_] twins. *)
Definition rekeyed_columns : list (string * string) :=
  [("users", "id"); ("users", "new_id")]
  ++ Change_user_id_to_email_prefix.tables_with_user_fks
  ++ ((λ '(t, c), (t, "new_" +:+ c))
        <$> Change_user_id_to_email_prefix.tables_with_user_fks).

Definition is_create_primary_key_of (name t : string) (o : op) : bool :=
  match o with
  | create_primary_key n' t' _ => bool_decide (n' = name ∧ t' = t)
  | _ => false
  end.

Definition is_set_not_null_of (t c : string) (o : op) : bool :=
  match o with
  | alter_column t' c' (Some false) None => bool_decide (t' = t ∧ c' = c)
  | _ => false
  end.

(** * Properties *)

(** ** The error monad *)

Lemma bind_OK {A B} (m : result A) (f : A → result B) (b : B) :
  m ≫= f = OK b ↔ ∃ a, m = OK a ∧ f a = OK b.
Proof.
  destruct m as [a|e]; simpl; split.
  - eauto.
  - by intros (a' & [= ->] & ?).
  - done.
  - by intros (? & ? & ?).
Qed.

Lemma OK_from_OK (r : result database) : is_OK r = true → r = OK (from_OK r).
Proof. by destruct r. Qed.

Lemma require_OK (b : bool) (e : error) (u : unit) : require b e = OK u ↔ b = true.
Proof. destruct b, u; simpl; split; congruence. Qed.

Lemma get_table_OK d t T : get_table d t = OK T ↔ db_tables d !! t = Some T.
Proof. unfold get_table. destruct (db_tables d !! t); split; congruence. Qed.

Lemma get_column_OK t T c col :
  get_column t T c = OK col ↔ tbl_columns T !! c = Some col.
Proof. unfold get_column. destruct (tbl_columns T !! c); split; congruence. Qed.

(** Inversion of a successful monadic computation, one bind at a time. *)
Ltac inv_OK :=
  repeat match goal with
  | H : _ ≫= _ = OK _ |- _ =>
      let a := fresh "x" in
      let Ha := fresh "H" a in
      apply bind_OK in H as (a & Ha & H)
  | H : require _ _ = OK _ |- _ => apply require_OK in H
  | H : get_table _ _ = OK _ |- _ => apply get_table_OK in H
  | H : get_column _ _ _ = OK _ |- _ => apply get_column_OK in H
  | H : mret _ = OK _ |- _ => injection H as H
  | H : OK _ = OK _ |- _ => injection H as H
  | H : Raise _ = OK _ |- _ => discriminate H
  end.

Lemma mapM_OK {A B} (f : A → result B) (l : list A) (k : list B) :
  mapM f l = OK k ↔ Forall2 (λ x y, f x = OK y) l k.
Proof.
  revert k. induction l as [|x l IH]; intros k; simpl.
  - split; [intros [= <-]; constructor | by inversion 1].
  - split.
    + intros H. inv_OK. subst k. constructor; [done | by apply IH].
    + inversion 1 as [|? y ? k' Hy Hk]; subst.
      rewrite Hy. simpl. apply IH in Hk. rewrite Hk. done.
Qed.

Lemma mapM_OK_fmap {A B C} (f : A → result B) (g : A → C) (h : B → C)
    (l : list A) (k : list B) :
  mapM f l = OK k → (∀ x y, f x = OK y → h y = g x) → h <$> k = g <$> l.
Proof.
  rewrite mapM_OK. induction 1 as [|x y l k Hxy _ IH]; intros Hf.
  - done.
  - rewrite !fmap_cons. f_equal; [by apply Hf | by apply IH].
Qed.

Lemma mapM_OK_lookup {A B} (f : A → result B) (l : list A) (k : list B) i x :
  mapM f l = OK k → l !! i = Some x → ∃ y, k !! i = Some y ∧ f x = OK y.
Proof.
  rewrite mapM_OK. intros H Hi.
  destruct (Forall2_lookup_l _ _ _ _ _ H Hi) as (y & ? & ?). eauto.
Qed.

(** ** [SPLIT_PART] *)

Lemma fields_no_delim delim s : contains delim s = false → fields delim s = [s].
Proof.
  induction s as [|a s IH]; simpl; [done|].
  intros [Ha Hs]%orb_false_iff. rewrite Ha, (IH Hs). done.
Qed.

Lemma fields_prefix delim p rest :
  contains delim p = false →
  fields delim (p +:+ String delim rest) = p :: fields delim rest.
Proof.
  induction p as [|a p IH]; simpl.
  - intros _. by rewrite Ascii.eqb_refl.
  - intros [Ha Hp]%orb_false_iff. rewrite Ha, (IH Hp). done.
Qed.

(** Field 1 is what precedes the first occurrence of the delimiter, and the
    whole string when the delimiter does not occur. *)
Lemma SPLIT_PART_1_prefix delim p rest :
  contains delim p = false →
  SPLIT_PART (p +:+ String delim rest) delim 1 = p.
Proof. intros Hp. unfold SPLIT_PART. by rewrite fields_prefix. Qed.

Lemma SPLIT_PART_1_whole delim s :
  contains delim s = false → SPLIT_PART s delim 1 = s.
Proof. intros Hs. unfold SPLIT_PART. by rewrite fields_no_delim. Qed.

(** ** Running a list of operations *)

Lemma run_app (ops1 ops2 : list op) (d d' : database) :
  run (ops1 ++ ops2) d = OK d' ↔ ∃ dm, run ops1 d = OK dm ∧ run ops2 dm = OK d'.
Proof.
  revert d. induction ops1 as [|o ops1 IH]; intros d; simpl.
  - split; [eauto | by intros (? & [= ->] & ?)].
  - rewrite bind_OK. split.
    + intros (d1 & Ho & (dm & H1 & H2)%IH). exists dm. rewrite Ho. eauto.
    + intros (dm & (d1 & Ho & H1)%bind_OK & H2). exists d1. rewrite IH. eauto.
Qed.

Lemma run_cons (o : op) (ops : list op) (d d' : database) :
  run (o :: ops) d = OK d' ↔ ∃ dm, exec o d = OK dm ∧ run ops dm = OK d'.
Proof. simpl. apply bind_OK. Qed.

(** ** Frame: what an operation leaves alone *)

Lemma column_values_tables d d' t c :
  db_tables d' !! t = db_tables d !! t → column_values d' t c = column_values d t c.
Proof. unfold column_values, table_rows. by intros ->. Qed.

Lemma column_values_insert d d' t t' T T' c :
  db_tables d !! t' = Some T →
  db_tables d' = <[t' := T']> (db_tables d) →
  (t' = t → (λ r : gmap string value, r !! c) <$> tbl_rows T'
            = (λ r : gmap string value, r !! c) <$> tbl_rows T) →
  column_values d' t c = column_values d t c.
Proof.
  intros HT Hd' Hrows. unfold column_values, table_rows. rewrite Hd'.
  destruct (decide (t' = t)) as [<-|Hne].
  - rewrite lookup_insert_eq, HT. auto.
  - by rewrite lookup_insert_ne.
Qed.

Lemma set_cell_lookup_ne c c' v (r : gmap string value) :
  c' ≠ c → set_cell c' v r !! c = r !! c.
Proof.
  intros Hne. destruct v; simpl; [by rewrite lookup_insert_ne | by rewrite lookup_delete_ne].
Qed.

Lemma set_cell_lookup_eq c v (r : gmap string value) : set_cell c v r !! c = v.
Proof.
  destruct v; simpl; [by rewrite lookup_insert_eq | by rewrite lookup_delete_eq].
Qed.

Lemma update_rows_frame d d' t t' T f c :
  update_rows d t' T f = OK d' →
  db_tables d !! t' = Some T →
  (t' = t → ∀ r r', f r = OK r' → r' !! c = r !! c) →
  column_values d' t c = column_values d t c.
Proof.
  intros H HT Hf. unfold update_rows in H. inv_OK. subst d'.
  eapply column_values_insert; [done | done |]. simpl. intros Heq.
  eapply mapM_OK_fmap; [done | auto].
Qed.

Lemma exec_statement_frame s d d' t c :
  touches (execute s) t c = false →
  exec_statement s d = OK d' →
  column_values d' t c = column_values d t c.
Proof.
  intros Ht H. destruct s as [|t' c' w|name|i uid]; simpl in *.
  - inv_OK. eapply update_rows_frame; [eassumption | eassumption |].
    intros <- r r' Hr. apply bool_decide_eq_false in Ht.
    destruct (r !! "new_id"); inv_OK; [by subst |]. subst r'.
    apply set_cell_lookup_ne. naive_solver.
  - inv_OK. eapply update_rows_frame; [eassumption | eassumption |].
    intros <- r r' Hr. apply bool_decide_eq_false in Ht.
    destruct (w && _); inv_OK; [by subst |]. subst r'.
    apply set_cell_lookup_ne. naive_solver.
  - inv_OK. by subst d'.
  - inv_OK. eapply update_rows_frame; [eassumption | eassumption |].
    intros <- r r' Hr. apply bool_decide_eq_false in Ht.
    destruct (bool_decide _); inv_OK; [|by subst]. subst r'.
    apply set_cell_lookup_ne. naive_solver.
Qed.

Lemma fmap_lookup_delete_ne c c' (rows : list (gmap string value)) :
  c' ≠ c →
  (λ r : gmap string value, r !! c) <$> (delete c' <$> rows)
  = (λ r : gmap string value, r !! c) <$> rows.
Proof.
  intros Hne. rewrite <- list_fmap_compose. apply list_fmap_ext.
  intros _ r _. simpl. by rewrite lookup_delete_ne.
Qed.

Lemma rename_key_lookup_ne c c' c'' (r : gmap string value) :
  c' ≠ c → c'' ≠ c → rename_key c' c'' r !! c = r !! c.
Proof.
  intros H1 H2. unfold rename_key.
  rewrite set_cell_lookup_ne by done. by rewrite lookup_delete_ne.
Qed.

Lemma rename_key_lookup_eq c' c'' (r : gmap string value) :
  rename_key c' c'' r !! c'' = r !! c'.
Proof. unfold rename_key. apply set_cell_lookup_eq. Qed.

Lemma set_nullable_frame d d' t' c' b t c :
  set_nullable d t' c' b = OK d' → column_values d' t c = column_values d t c.
Proof.
  unfold set_nullable. intros H. inv_OK. subst d'.
  eapply column_values_insert; [eassumption | done | done].
Qed.

Lemma rename_column_frame d d' t' c' c'' t c :
  rename_column d t' c' c'' = OK d' →
  ¬ (t' = t ∧ (c' = c ∨ c'' = c)) →
  column_values d' t c = column_values d t c.
Proof.
  unfold rename_column. intros H Hne. inv_OK. subst d'.
  eapply column_values_insert; [eassumption | done |]. simpl. intros ->.
  rewrite <- list_fmap_compose. apply list_fmap_ext. intros _ r _. simpl.
  apply rename_key_lookup_ne; naive_solver.
Qed.

Lemma exec_frame o d d' t c :
  touches o t c = false →
  exec o d = OK d' →
  column_values d' t c = column_values d t c.
Proof.
  intros Ht H.
  destruct o as [t' c' ty nl|t' c' nl rn|n t' cs|n t' ty|n t'|t' c'|n t' cs
                |n t' cs u|n t' rf cs rcs od|s]; simpl in H.
  - inv_OK. subst d'. apply bool_decide_eq_false in Ht.
    eapply column_values_insert; [eassumption | done |]. simpl. intros ->.
    apply fmap_lookup_delete_ne. naive_solver.
  - inv_OK.
    assert (column_values x t c = column_values d t c) as <-.
    { destruct nl; [by eapply set_nullable_frame | by inv_OK; subst]. }
    destruct rn as [c''|]; [| by inv_OK; subst].
    simpl in Ht. apply bool_decide_eq_false in Ht.
    by eapply rename_column_frame.
  - inv_OK. by subst d'.
  - inv_OK. by subst d'.
  - inv_OK. by subst d'.
  - inv_OK. subst d'. apply bool_decide_eq_false in Ht.
    eapply column_values_insert; [eassumption | done |]. simpl. intros ->.
    apply fmap_lookup_delete_ne. naive_solver.
  - inv_OK. subst d'.
    eapply column_values_insert; [eassumption | done | done].
  - inv_OK. by subst d'.
  - inv_OK. by subst d'.
  - by eapply exec_statement_frame.
Qed.

Lemma run_frame ops d d' t c :
  forallb (λ o, negb (touches o t c)) ops = true →
  run ops d = OK d' →
  column_values d' t c = column_values d t c.
Proof.
  revert d. induction ops as [|o ops IH]; intros d Hall H; simpl in *.
  - by injection H as <-.
  - apply andb_true_iff in Hall as [Ho Hall]. apply negb_true_iff in Ho.
    inv_OK. rewrite (IH _ Hall H). by eapply exec_frame.
Qed.

Lemma split_last_None p ops :
  split_last p ops = None → forallb (λ o, negb (p o)) ops = true.
Proof.
  induction ops as [|o ops IH]; simpl; [done|].
  destruct (split_last p ops) as [[[? ?] ?]|]; [done|].
  destruct (p o); [done|]. simpl. auto.
Qed.

Lemma split_last_Some p ops pre o post :
  split_last p ops = Some (pre, o, post) →
  ops = pre ++ o :: post ∧ p o = true ∧
  forallb (λ o, negb (p o)) post = true.
Proof.
  revert pre o post. induction ops as [|o' ops IH]; intros pre o post; simpl.
  - done.
  - destruct (split_last p ops) as [[[pre' o''] post']|] eqn:E.
    + intros [= <- <- <-]. destruct (IH _ _ _ eq_refl) as (-> & ? & ?). done.
    + destruct (p o') eqn:Ho; [|done]. intros [= <- <- <-].
      split; [done|]. split; [done|]. by apply split_last_None.
Qed.

(** A successful run, cut at the last operation that satisfies [p]. *)
Lemma run_split_last p ops pre o post d d' :
  split_last p ops = Some (pre, o, post) →
  run ops d = OK d' →
  ∃ d1 d2, run pre d = OK d1 ∧ exec o d1 = OK d2 ∧ run post d2 = OK d' ∧
           forallb (λ o, negb (p o)) post = true.
Proof.
  intros (-> & _ & Hpost)%split_last_Some.
  intros (d1 & Hpre & (d2 & Ho & Hrun)%run_cons)%run_app.
  by exists d1, d2.
Qed.

Lemma run_last_touch t c ops pre o post d d' :
  split_last (λ o, touches o t c) ops = Some (pre, o, post) →
  run ops d = OK d' →
  ∃ d1 d2, run pre d = OK d1 ∧ exec o d1 = OK d2 ∧
           column_values d' t c = column_values d2 t c.
Proof.
  intros Hs H. destruct (run_split_last _ _ _ _ _ _ _ Hs H)
    as (d1 & d2 & ? & ? & ? & ?).
  exists d1, d2. split; [done|]. split; [done|]. by eapply run_frame.
Qed.

Lemma run_untouched t c ops d d' :
  split_last (λ o, touches o t c) ops = None →
  run ops d = OK d' →
  column_values d' t c = column_values d t c.
Proof. intros ?%split_last_None. by apply run_frame. Qed.

(** ** Frame for constraints *)

Lemma filter_append_other {A} (P : A → Prop) `{∀ x, Decision (P x)} (l : list A) x :
  ¬ P x → filter P (l ++ [x]) = filter P l.
Proof.
  intros Hx. rewrite filter_app, (filter_cons_False _ _ _ Hx).
  simpl. apply app_nil_r.
Qed.

Lemma filter_filter_keep {A} (P Q : A → Prop)
    `{∀ x, Decision (P x)} `{∀ x, Decision (Q x)} (l : list A) :
  (∀ x, P x → Q x) → filter P (filter Q l) = filter P l.
Proof.
  intros HPQ. induction l as [|x l IH]; [done|].
  destruct (decide (Q x)) as [HQ|HQ].
  - rewrite (filter_cons_True Q) by done.
    destruct (decide (P x)).
    + rewrite !(filter_cons_True P) by done. by rewrite IH.
    + rewrite !(filter_cons_False P) by done. done.
  - rewrite (filter_cons_False Q) by done.
    rewrite (filter_cons_False P) by naive_solver. done.
Qed.

Lemma find_constraint_same d d' t name :
  db_constraints d' = db_constraints d →
  find_constraint d' t name = find_constraint d t name.
Proof. unfold find_constraint. by intros ->. Qed.

Lemma find_constraint_add d k t name :
  ¬ (con_table k = t ∧ con_name k = name) →
  find_constraint (add_constraint d k) t name = find_constraint d t name.
Proof.
  intros Hk. unfold find_constraint, add_constraint. simpl.
  by rewrite filter_append_other.
Qed.

Lemma find_constraint_filter d ks (Q : constraint → Prop)
    `{∀ x, Decision (Q x)} t name :
  (∀ k, con_table k = t ∧ con_name k = name → Q k) →
  find_constraint (set_constraints d (filter Q ks)) t name
  = find_constraint (set_constraints d ks) t name.
Proof.
  intros HQ. unfold find_constraint. simpl. by rewrite filter_filter_keep.
Qed.

Lemma update_rows_constraints d d' t T f :
  update_rows d t T f = OK d' → db_constraints d' = db_constraints d.
Proof. unfold update_rows. intros H. inv_OK. by subst d'. Qed.

Lemma exec_statement_constraints s d d' :
  exec_statement s d = OK d' → db_constraints d' = db_constraints d.
Proof.
  destruct s; simpl; intros H; inv_OK;
    solve [by eapply update_rows_constraints | by subst d'].
Qed.

Lemma is_named_true t name k :
  is_named t name k = true ↔ con_table k = t ∧ con_name k = name.
Proof.
  unfold is_named. rewrite andb_true_iff, !bool_decide_eq_true. done.
Qed.

Lemma exec_frame_constraint o d d' t name :
  touches_constraint o t name = false →
  exec o d = OK d' →
  find_constraint d' t name = find_constraint d t name.
Proof.
  intros Ht H.
  destruct o as [t' c' ty nl|t' c' nl rn|n t' cs|n t' ty|n t'|t' c'|n t' cs
                |n t' cs u|n t' rf cs rcs od|s]; simpl in H, Ht.
  - inv_OK. by subst d'.
  - destruct rn; [done|]. inv_OK. subst d'.
    destruct nl; [|by inv_OK; subst].
    unfold set_nullable in *. inv_OK. by subst.
  - inv_OK. subst d'. apply bool_decide_eq_false in Ht.
    apply find_constraint_add. simpl. naive_solver.
  - inv_OK. subst d'. apply bool_decide_eq_false in Ht.
    rewrite find_constraint_filter; [by destruct d|].
    intros k Hk [Hn _]%Is_true_true%andb_true_iff.
    apply is_named_true in Hn. naive_solver.
  - inv_OK. subst d'. apply bool_decide_eq_false in Ht.
    rewrite find_constraint_filter; [by destruct d|].
    intros k Hk [Hn _]%Is_true_true%andb_true_iff.
    apply is_named_true in Hn. naive_solver.
  - inv_OK. subst d'. apply bool_decide_eq_false in Ht.
    unfold find_constraint. simpl. rewrite filter_filter_keep; [done|].
    naive_solver.
  - inv_OK. subst d'. apply bool_decide_eq_false in Ht.
    rewrite find_constraint_add by (simpl; naive_solver). done.
  - inv_OK. subst d'. apply bool_decide_eq_false in Ht.
    apply find_constraint_add. simpl. naive_solver.
  - inv_OK. subst d'. apply bool_decide_eq_false in Ht.
    apply find_constraint_add. simpl. naive_solver.
  - apply find_constraint_same. by eapply exec_statement_constraints.
Qed.

Lemma run_frame_constraint ops d d' t name :
  forallb (λ o, negb (touches_constraint o t name)) ops = true →
  run ops d = OK d' →
  find_constraint d' t name = find_constraint d t name.
Proof.
  revert d. induction ops as [|o ops IH]; intros d Hall H; simpl in *.
  - by injection H as <-.
  - apply andb_true_iff in Hall as [Ho Hall]. apply negb_true_iff in Ho.
    inv_OK. rewrite (IH _ Hall H). by eapply exec_frame_constraint.
Qed.

Lemma run_last_touch_constraint t name ops pre o post d d' :
  split_last (λ o, touches_constraint o t name) ops = Some (pre, o, post) →
  run ops d = OK d' →
  ∃ d1 d2, run pre d = OK d1 ∧ exec o d1 = OK d2 ∧
           find_constraint d' t name = find_constraint d2 t name.
Proof.
  intros Hs H. destruct (run_split_last _ _ _ _ _ _ _ Hs H)
    as (d1 & d2 & ? & ? & ? & ?).
  exists d1, d2. split; [done|]. split; [done|]. by eapply run_frame_constraint.
Qed.

Lemma run_untouched_constraint t name ops d d' :
  split_last (λ o, touches_constraint o t name) ops = None →
  run ops d = OK d' →
  find_constraint d' t name = find_constraint d t name.
Proof. intros ?%split_last_None. by apply run_frame_constraint. Qed.

(** ** Effects of the operations on constraints *)

Lemma name_taken_false d t name b :
  name_taken d t name b = false →
  filter (λ k, con_table k = t ∧ con_name k = name) (db_constraints d) = [].
Proof.
  unfold name_taken. induction (db_constraints d) as [|k ks IH]; simpl; [done|].
  intros [Hk Hks]%orb_false_iff. rewrite filter_cons_False; [by apply IH|].
  intros [Ht Hn]. rewrite (bool_decide_eq_true_2 _ Hn) in Hk.
  rewrite (bool_decide_eq_true_2 _ Ht) in Hk. done.
Qed.

Lemma exec_create_foreign_key d d' n t r cs rcs od :
  exec (create_foreign_key n t r cs rcs od) d = OK d' →
  find_constraint d' t (default (fkey_name t cs) n)
  = Some (ForeignKey cs r rcs od).
Proof.
  simpl. intros H. inv_OK. subst d'.
  match goal with E : negb (name_taken _ _ _ _) = true |- _ =>
    apply negb_true_iff, name_taken_false in E; rename E into Hfree end.
  unfold find_constraint, add_constraint. simpl.
  rewrite filter_app, Hfree. simpl. by rewrite filter_cons_True.
Qed.

Lemma exec_drop_constraint d d' n t ty :
  exec (drop_constraint n t ty) d = OK d' →
  is_Some (find_constraint d t n).
Proof.
  simpl. intros H. inv_OK.
  match goal with E : existsb _ _ = true |- _ =>
    apply existsb_exists in E as (k & Hin & [Hk _]%andb_true_iff) end.
  apply is_named_true in Hk. unfold find_constraint.
  apply list_elem_of_In in Hin.
  assert (k ∈ filter (λ k, con_table k = t ∧ con_name k = n) (db_constraints d))
    as Hf by (by apply list_elem_of_filter).
  revert Hf. generalize (filter (λ k, con_table k = t ∧ con_name k = n) (db_constraints d)).
  intros [|k' ks] Hf; [by apply elem_of_nil in Hf | by eexists].
Qed.

(** ** The list of constraints after a run *)

Lemma omap_cons {A B} (f : A → option B) (x : A) (l : list A) :
  omap f (x :: l) = match f x with Some y => y :: omap f l | None => omap f l end.
Proof. done. Qed.

Lemma filter_omap {A} (P : A → Prop) `{∀ x, Decision (P x)} (l : list A) :
  filter P l = omap (λ x, if decide (P x) then Some x else None) l.
Proof.
  induction l as [|x l IH]; [done|]. rewrite omap_cons.
  destruct (decide (P x)).
  - rewrite filter_cons_True by done. by rewrite IH.
  - rewrite filter_cons_False by done. by rewrite IH.
Qed.

Lemma omap_Some {A} (l : list A) : omap Some l = l.
Proof. induction l as [|x l IH]; [done|]. rewrite omap_cons. by f_equal. Qed.

Lemma omap_Some_ext {A} (f : A → option A) (l : list A) :
  (∀ x, f x = Some x) → omap f l = l.
Proof.
  intros Hf. rewrite <- (omap_Some l) at 2. apply list_omap_ext.
  apply Forall2_same_length_lookup_2; [done|].
  intros i x y Hx Hy. rewrite Hf. congruence.
Qed.

Lemma omap_omap {A B C} (f : A → option B) (g : B → option C) (l : list A) :
  omap g (omap f l) = omap (λ x, f x ≫= g) l.
Proof.
  induction l as [|x l IH]; [done|]. rewrite !omap_cons.
  destruct (f x) as [y|]; [|done]. change (Some y ≫= g) with (g y).
  rewrite omap_cons. destruct (g y); by rewrite IH.
Qed.

Lemma exec_constraints o d d' :
  exec o d = OK d' →
  db_constraints d' = omap (survive o) (db_constraints d) ++ creates o.
Proof.
  intros H.
  destruct o as [t' c' ty nl|t' c' nl rn|n t' cs|n t' ty|n t'|t' c'|n t' cs
                |n t' cs u|n t' rf cs rcs od|s]; simpl in H.
  - inv_OK. subst d'. simpl. by rewrite omap_Some_ext, app_nil_r.
  - inv_OK.
    assert (db_constraints x = db_constraints d) as Hx'.
    { destruct nl; [|by inv_OK; subst]. unfold set_nullable in *.
      inv_OK. by subst. }
    destruct rn as [c''|]; simpl.
    + unfold rename_column in H. inv_OK. subst d'. simpl.
      rewrite Hx', app_nil_r. clear.
      induction (db_constraints d) as [|k ks IH]; [done|].
      rewrite fmap_cons, omap_cons. by f_equal.
    + inv_OK. subst d'. by rewrite Hx', omap_Some_ext, app_nil_r.
  - inv_OK. subst d'. simpl. by rewrite omap_Some_ext.
  - inv_OK. subst d'. simpl. rewrite app_nil_r, filter_omap.
    apply list_omap_ext, Forall2_same_length_lookup_2; [done|].
    intros i k k' Hk Hk'. assert (k' = k) as -> by congruence.
    unfold survive.
    destruct (is_named t' n k && negb (is_index k)); case_decide as Hd;
      simpl in Hd; tauto.
  - inv_OK. subst d'. simpl. rewrite app_nil_r, filter_omap.
    apply list_omap_ext, Forall2_same_length_lookup_2; [done|].
    intros i k k' Hk Hk'. assert (k' = k) as -> by congruence.
    unfold survive.
    destruct (is_named t' n k && is_index k); case_decide as Hd;
      simpl in Hd; tauto.
  - inv_OK. subst d'. simpl. rewrite app_nil_r, filter_omap.
    apply list_omap_ext, Forall2_same_length_lookup_2; [done|].
    intros i k k' Hk Hk'. assert (k' = k) as -> by congruence.
    unfold survive. case_bool_decide; case_decide; tauto.
  - inv_OK. subst d'. simpl. by rewrite omap_Some_ext.
  - inv_OK. subst d'. simpl. by rewrite omap_Some_ext.
  - inv_OK. subst d'. simpl. by rewrite omap_Some_ext.
  - simpl. rewrite omap_Some_ext, app_nil_r by done.
    by eapply exec_statement_constraints.
Qed.

Lemma run_constraints ops d d' :
  run ops d = OK d' →
  db_constraints d' = omap (survive_all ops) (db_constraints d) ++ created_by ops.
Proof.
  revert d. induction ops as [|o ops IH]; intros d H; simpl in H.
  - injection H as <-. simpl. by rewrite omap_Some_ext, app_nil_r.
  - inv_OK. rewrite (IH _ H), (exec_constraints _ _ _ Hx).
    rewrite omap_app, omap_omap, <- app_assoc. done.
Qed.

Lemma survive_all_cons o ops k :
  survive_all (o :: ops) k = survive o k ≫= survive_all ops.
Proof. done. Qed.

Lemma survive_all_app ops1 ops2 k :
  survive_all (ops1 ++ ops2) k = survive_all ops1 k ≫= survive_all ops2.
Proof.
  revert k. induction ops1 as [|o ops1 IH]; intros k; simpl; [done|].
  destruct (survive o k) as [k'|]; simpl; [apply IH | done].
Qed.

Lemma survive_all_keeps ops k :
  forallb keeps_constraints ops = true → survive_all ops k = Some k.
Proof.
  induction ops as [|o ops IH]; simpl; [done|].
  intros [Ho Hops]%andb_true_iff.
  assert (survive o k = Some k) as ->.
  { destruct o as [| ? ? ? [?|] | | | | | | | |]; done. }
  simpl. by apply IH.
Qed.

(** What a constraint references in table [t] is not changed by an
    operation that renames no column of [t]. *)
Lemma survive_references o k k' t c :
  renames_in t o = false →
  survive o k = Some k' →
  references k' t c = references k t c.
Proof.
  intros Hren.
  destruct o as [| t' c' nl [c''|] | | n t' ty | n t' | t' c' | | | |];
    simpl; try (by intros [= <-]).
  - intros [= <-]. simpl in Hren. apply bool_decide_eq_false in Hren.
    unfold references, rename_constraint. destruct k as [n tk def]. simpl.
    destruct def as [cs|cs|cs r rcs od|cs u]; repeat case_decide; simpl;
      try done; repeat case_decide; simpl; try done; by subst.
  - destruct (is_named t' n k && negb (is_index k)); [done | by intros [= <-]].
  - destruct (is_named t' n k && is_index k); [done | by intros [= <-]].
  - case_bool_decide; [done | by intros [= <-]].
Qed.

Lemma survive_all_references ops k k' t c :
  forallb (λ o, negb (renames_in t o)) ops = true →
  survive_all ops k = Some k' →
  references k' t c = references k t c.
Proof.
  revert k. induction ops as [|o ops IH]; intros k; simpl.
  - by intros _ [= <-].
  - intros [Ho Hops]%andb_true_iff. apply negb_true_iff in Ho.
    destruct (survive o k) as [k1|] eqn:E; simpl; [|done].
    intros Hk'. rewrite (IH _ Hops Hk'). by eapply survive_references.
Qed.

Lemma rename_references t c c' k :
  references (rename_constraint t c c' k) t c' = true →
  references k t c' = true ∨ references k t c = true.
Proof.
  assert (∀ rcs, c' ∈ rename_in c c' rcs → c' ∈ rcs ∨ c ∈ rcs) as Hin.
  { intros rcs (x & Hx & Hin)%list_elem_of_fmap.
    case_decide; subst; eauto. }
  destruct k as [n tk def]. unfold references, rename_constraint. simpl.
  destruct def as [cs|cs|cs r rcs od|cs u].
  - case_decide; simpl; discriminate.
  - case_decide; simpl; discriminate.
  - destruct (decide (r = t)) as [->|Hne].
    + assert (∀ cs', references (Constraint n tk
                 (if decide (t = t) then ForeignKey cs' t (rename_in c c' rcs) od
                  else ForeignKey cs' t rcs od)) t c' = true →
               c' ∈ rcs ∨ c ∈ rcs) as Hcase.
      { intros cs'. unfold references. simpl.
        rewrite decide_True by done.
        rewrite andb_true_iff, !bool_decide_eq_true. intros [_ ?]. auto. }
      intros H.
      assert (c' ∈ rcs ∨ c ∈ rcs) as [?|?].
      { case_decide; [apply (Hcase (rename_in c c' cs)) | apply (Hcase cs)];
          exact H. }
      * left. rewrite andb_true_iff, !bool_decide_eq_true. done.
      * right. rewrite andb_true_iff, !bool_decide_eq_true. done.
    + intros H. left.
      case_decide; simpl in H; rewrite decide_False in H by done; exact H.
  - case_decide; simpl; discriminate.
Qed.

Lemma exec_drop_column_unreferenced d d' t c k :
  exec (drop_column t c) d = OK d' →
  k ∈ db_constraints d → references k t c = false.
Proof.
  simpl. intros H Hk. inv_OK.
  match goal with E : negb (existsb _ _) = true |- _ =>
    apply negb_true_iff in E; rename E into Hnone end.
  destruct (references k t c) eqn:Hr; [|done].
  rewrite <- Hnone. symmetry. apply existsb_exists. exists k.
  split; [by apply list_elem_of_In | done].
Qed.

(** When a column [c] of [t] is dropped and [c'] renamed to [c], with no
    rename in [t] before and only creations after, no constraint that was
    there from the start references [(t, c)] at the end, unless it
    referenced [(t, c')] at the start. *)
Lemma no_surviving_reference (pre post : list op) (t c c' : string) d d' k0 k :
  run (pre ++ drop_column t c :: alter_column t c' None (Some c) :: post) d = OK d' →
  forallb (λ o, negb (renames_in t o)) pre = true →
  forallb keeps_constraints post = true →
  k0 ∈ db_constraints d →
  references k0 t c' = false →
  survive_all (pre ++ drop_column t c :: alter_column t c' None (Some c) :: post) k0
    = Some k →
  references k t c = false.
Proof.
  intros (d1 & Hpre & (d2 & Hdrop & _)%run_cons)%run_app Hnoren Hkeeps Hk0 Hnew.
  rewrite survive_all_app.
  destruct (survive_all pre k0) as [km|] eqn:Hkm; [|done].
  change (Some km ≫= ?f) with (f km).
  assert (references km t c = false) as Hkm_c.
  { apply (exec_drop_column_unreferenced _ _ _ _ _ Hdrop).
    rewrite (run_constraints _ _ _ Hpre), elem_of_app. left.
    apply list_elem_of_omap. eauto. }
  assert (references km t c' = false) as Hkm_c'.
  { by rewrite (survive_all_references _ _ _ _ _ Hnoren Hkm). }
  rewrite survive_all_cons.
  destruct (survive (drop_column t c) km) as [km'|] eqn:Hdc; [|done].
  assert (km' = km) as ->.
  { simpl in Hdc. case_bool_decide; congruence. }
  change (Some km ≫= ?f) with (f km). rewrite survive_all_cons.
  change (survive (alter_column t c' None (Some c)) km)
    with (Some (rename_constraint t c' c km)).
  change (Some ?x ≫= ?f) with (f x).
  rewrite survive_all_keeps by done. intros [= <-].
  destruct (references (rename_constraint t c' c km) t c) eqn:Hr; [|done].
  apply rename_references in Hr as [Hr|Hr]; congruence.
Qed.

(** ** Effects of the operations that move data *)

Lemma exec_rename_values d d' t c c' :
  exec (alter_column t c None (Some c')) d = OK d' →
  column_values d' t c' = column_values d t c.
Proof.
  simpl. intros H. inv_OK. subst x. unfold rename_column in H. inv_OK. subst d'.
  unfold column_values, table_rows. simpl. rewrite lookup_insert_eq. simpl.
  match goal with E : db_tables d !! t = Some ?T |- context [tbl_rows ?T] =>
    rewrite E end.
  rewrite <- list_fmap_compose. apply list_fmap_ext.
  intros _ r _. simpl. apply rename_key_lookup_eq.
Qed.

Lemma exec_add_column_values d d' t c ty nl i v :
  exec (add_column t c ty nl) d = OK d' →
  column_values d' t c !! i = Some v → v = None.
Proof.
  simpl. intros H. inv_OK. subst d'.
  unfold column_values, table_rows. simpl. rewrite lookup_insert_eq. simpl.
  rewrite <- list_fmap_compose, list_lookup_fmap.
  destruct (tbl_rows x !! i) as [r|]; simpl; [|done].
  rewrite lookup_delete_eq. congruence.
Qed.

Lemma update_rows_values d d' t T f c i r :
  update_rows d t T f = OK d' →
  db_tables d !! t = Some T →
  table_rows d t !! i = Some r →
  ∃ r', f r = OK r' ∧ column_values d' t c !! i = Some (r' !! c).
Proof.
  unfold update_rows. intros H HT Hi. inv_OK. subst d'.
  unfold table_rows in Hi. rewrite HT in Hi.
  destruct (mapM_OK_lookup _ _ _ _ _ Hx Hi) as (r' & Hr' & Hf).
  exists r'. split; [done|].
  unfold column_values, table_rows. simpl. rewrite lookup_insert_eq. simpl.
  by rewrite list_lookup_fmap, Hr'.
Qed.

Lemma column_values_lookup d t c i v :
  column_values d t c !! i = Some v ↔
  ∃ r, table_rows d t !! i = Some r ∧ r !! c = v.
Proof.
  unfold column_values. rewrite list_lookup_fmap. split.
  - destruct (table_rows d t !! i) as [r|]; simpl; [intros [= <-]; eauto | done].
  - by intros (r & -> & <-).
Qed.

Lemma store_OK t c col v v' : store t c col v = OK v' → v' = v.
Proof.
  unfold store. destruct v as [[z|s]|], (col_type col); simpl;
    repeat case_match; congruence.
Qed.

Lemma exec_UPDATE_users_SET_new_id_prefix d d' i e :
  exec (execute UPDATE_users_SET_new_id_prefix) d = OK d' →
  column_values d "users" "new_id" !! i = Some None →
  column_values d "users" "email" !! i = Some (Some (VStr e)) →
  column_values d' "users" "new_id" !! i = Some (Some (VStr (SPLIT_PART e "@" 1))).
Proof.
  simpl. intros H (r & Hr & Hnew)%column_values_lookup
    (r2 & Hr2 & Hemail)%column_values_lookup.
  assert (r2 = r) as -> by congruence. inv_OK.
  destruct (update_rows_values _ _ _ _ _ "new_id" _ _ H Hx Hr) as (r' & Hf & ->).
  rewrite Hnew, Hemail in Hf. inv_OK.
  match goal with E : SPLIT_PART_at_1 _ = OK _ |- _ => injection E as <- end.
  match goal with E : store _ _ _ _ = OK _ |- _ => apply store_OK in E as -> end.
  subst r'. by rewrite set_cell_lookup_eq.
Qed.

Lemma exec_UPDATE_SET_new_fk d d' t c w i k :
  exec (execute (UPDATE_SET_new_fk t c w)) d = OK d' →
  column_values d t c !! i = Some (Some k) →
  ∃ v, email_prefix_of_user
         (zip (column_values d "users" "id") (column_values d "users" "email"))
         (Some k) = OK v ∧
       column_values d' t ("new_" +:+ c) !! i = Some v.
Proof.
  simpl. intros H (r & Hr & Hk)%column_values_lookup. inv_OK.
  destruct (update_rows_values _ _ _ _ _ ("new_" +:+ c) _ _ H Hx Hr)
    as (r' & Hf & ->).
  rewrite Hk in Hf. rewrite bool_decide_eq_false_2, andb_false_r in Hf by done.
  inv_OK.
  match goal with E : store _ _ _ _ = OK _ |- _ => apply store_OK in E as -> end.
  subst r'. eexists. split; [eassumption|]. by rewrite set_cell_lookup_eq.
Qed.

Lemma email_prefix_of_user_found users k v j e :
  email_prefix_of_user users (Some k) = OK v →
  users !! j = Some (Some k, Some (VStr e)) →
  v = Some (VStr (SPLIT_PART e "@" 1)).
Proof.
  unfold email_prefix_of_user. intros H Hj.
  assert ((Some k, Some (VStr e)) ∈ filter (λ p : option value * option value, p.1 = Some k) users)
    as Hin.
  { apply list_elem_of_filter. split; [done|]. by eapply list_elem_of_lookup_2. }
  destruct (filter _ users) as [|p [|p' l]].
  - by apply elem_of_nil in Hin.
  - apply list_elem_of_singleton in Hin as <-. simpl in H. congruence.
  - done.
Qed.

Lemma zip_column_values_lookup d t c1 c2 j v1 v2 :
  column_values d t c1 !! j = Some v1 →
  column_values d t c2 !! j = Some v2 →
  zip (column_values d t c1) (column_values d t c2) !! j = Some (v1, v2).
Proof.
  intros H1 H2. apply lookup_zip_with_Some. eauto.
Qed.

Lemma column_values_same_rows d t c1 c2 i :
  is_Some (column_values d t c1 !! i) → is_Some (column_values d t c2 !! i).
Proof.
  unfold column_values. rewrite !list_lookup_fmap.
  destruct (table_rows d t !! i); simpl; [eauto | by intros [? ?]].
Qed.

(** ** Slicing a successful run at the operations that touch a column *)

Tactic Notation "cut_last" constr(t) constr(c) "in" hyp(H)
    "as" ident(d1) ident(d2) ident(H1) ident(H2) ident(H3) :=
  match type of H with
  | run ?ops ?d = OK ?d' =>
      let s := eval vm_compute in (split_last (λ x, touches x t c) ops) in
      match s with
      | Some (?pre, ?o, ?post) =>
          let E := fresh "E" in
          assert (split_last (λ x, touches x t c) ops = Some (pre, o, post)) as E
            by (vm_compute; reflexivity);
          destruct (run_last_touch t c ops pre o post d d' E H)
            as (d1 & d2 & H1 & H2 & H3);
          clear E
      end
  end.

Tactic Notation "untouched" constr(t) constr(c) "in" hyp(H) "as" ident(H3) :=
  match type of H with
  | run ?ops ?d = OK ?d' =>
      assert (column_values d' t c = column_values d t c) as H3
        by (apply (run_untouched t c ops d d'); [vm_compute; reflexivity | exact H])
  end.

Tactic Notation "cut_last_constraint" constr(t) constr(n) "in" hyp(H)
    "as" ident(d1) ident(d2) ident(H1) ident(H2) ident(H3) :=
  match type of H with
  | run ?ops ?d = OK ?d' =>
      let s := eval vm_compute in (split_last (λ x, touches_constraint x t n) ops) in
      match s with
      | Some (?pre, ?o, ?post) =>
          let E := fresh "E" in
          assert (split_last (λ x, touches_constraint x t n) ops = Some (pre, o, post))
            as E by (vm_compute; reflexivity);
          destruct (run_last_touch_constraint t n ops pre o post d d' E H)
            as (d1 & d2 & H1 & H2 & H3);
          clear E
      end
  end.

Tactic Notation "cut_at" constr(p) "in" hyp(H)
    "as" ident(d1) ident(d2) ident(H1) ident(H2) :=
  match type of H with
  | run ?ops ?d = OK ?d' =>
      let s := eval vm_compute in (split_last p ops) in
      match s with
      | Some (?pre, ?o, ?post) =>
          let E := fresh "E" in
          assert (split_last p ops = Some (pre, o, post))
            as E by (vm_compute; reflexivity);
          destruct (run_split_last p ops pre o post d d' E H)
            as (d1 & d2 & H1 & H2 & _ & _);
          clear E
      end
  end.

Tactic Notation "untouched_constraint" constr(t) constr(n) "in" hyp(H)
    "as" ident(H3) :=
  match type of H with
  | run ?ops ?d = OK ?d' =>
      assert (find_constraint d' t n = find_constraint d t n) as H3
        by (apply (run_untouched_constraint t n ops d d');
            [vm_compute; reflexivity | exact H])
  end.

Section Rekey.
Import Change_user_id_to_email_prefix.

Lemma upgrade_users_id d d' i e :
  upgrade d = OK d' →
  column_values d "users" "email" !! i = Some (Some (VStr e)) →
  column_values d' "users" "id" !! i = Some (Some (VStr (SPLIT_PART e "@" 1))).
Proof.
  unfold upgrade. intros H Hemail.
  cut_last "users" "id" in H as d3 d4 Hrun3 Hren Hid.
  apply exec_rename_values in Hren. rewrite Hid, Hren. clear Hid Hren H d4.
  cut_last "users" "new_id" in Hrun3 as d1 d2 Hrun1 Hupd Hnew.
  rewrite Hnew. clear Hnew Hrun3 d3.
  cut_last "users" "new_id" in Hrun1 as d0 d1' Hrun0 Hadd Hnone.
  injection Hrun0 as ->.
  untouched "users" "email" in Hrun1 as Hemail1.
  apply (exec_UPDATE_users_SET_new_id_prefix _ _ _ _ Hupd); [|by rewrite Hemail1].
  apply run_cons in Hrun1 as (dm & Hadd' & [= ->]).
  rewrite Hadd in Hadd'. injection Hadd' as ->. clear Hnone.
  destruct (column_values_same_rows d1 "users" "email" "new_id" i) as [v Ev].
  { rewrite Hemail1, Hemail. eauto. }
  by rewrite Ev, (exec_add_column_values _ _ _ _ _ _ _ _ Hadd Ev).
Qed.

Lemma upgrade_fk_values d d' t c i k j e :
  (t, c) ∈ tables_with_user_fks →
  upgrade d = OK d' →
  column_values d t c !! i = Some (Some k) →
  column_values d "users" "id" !! j = Some (Some k) →
  column_values d "users" "email" !! j = Some (Some (VStr e)) →
  column_values d' t c !! i = Some (Some (VStr (SPLIT_PART e "@" 1))).
Proof.
  unfold upgrade, tables_with_user_fks. intros Hin H Hfk Hid Hemail.
  repeat (apply elem_of_cons in Hin as [[= -> ->]|Hin]);
    [..|by apply elem_of_nil in Hin].
  all: match goal with
       | |- column_values _ ?t ?c !! _ = _ =>
           let nc := eval vm_compute in ("new_" +:+ c) in
           cut_last t c in H as d3 d4 Hrun3 Hren Hc;
           apply exec_rename_values in Hren; rewrite Hc, Hren;
           cut_last t nc in Hrun3 as d1 d2 Hrun1 Hupd Hnew;
           rewrite Hnew;
           untouched t c in Hrun1 as Hc1;
           untouched "users" "id" in Hrun1 as Hid1;
           untouched "users" "email" in Hrun1 as Hemail1;
           rewrite <- Hc1 in Hfk; rewrite <- Hid1 in Hid;
           rewrite <- Hemail1 in Hemail;
           destruct (exec_UPDATE_SET_new_fk _ _ _ _ _ _ _ Hupd Hfk)
             as (v & Hv & Hv');
           change ("new_" +:+ c) with nc in Hv'; rewrite Hv'; f_equal;
           apply (email_prefix_of_user_found _ _ _ j _ Hv);
           by apply zip_column_values_lookup
       end.
Qed.

(** C1. A completed [upgrade] re-keys by email prefix: row by row, the new
    [users.id] is [SPLIT_PART(email, '@', 1)], and in each of the seventeen
    referencing columns a row that held the integer id of a user row now
    holds that user row's email prefix. *)
Theorem upgrade_rekeys_by_email_prefix d d' :
  upgrade d = OK d' →
  (∀ i e,
     column_values d "users" "email" !! i = Some (Some (VStr e)) →
     column_values d' "users" "id" !! i = Some (Some (VStr (SPLIT_PART e "@" 1)))) ∧
  (∀ t c i k j e,
     (t, c) ∈ tables_with_user_fks →
     column_values d t c !! i = Some (Some (VInt k)) →
     column_values d "users" "id" !! j = Some (Some (VInt k)) →
     column_values d "users" "email" !! j = Some (Some (VStr e)) →
     column_values d' t c !! i = Some (Some (VStr (SPLIT_PART e "@" 1)))).
Proof.
  intros H. split.
  - intros i e. by apply upgrade_users_id.
  - intros t c i k j e Hin. by apply upgrade_fk_values.
Qed.

Lemma upgrade_sample : upgrade Sample.prior = OK upgraded_sample.
Proof. by apply OK_from_OK. Qed.

Lemma upgrade_rekeys_by_email_prefix_witness :
  column_values upgraded_sample "users" "id" !! 1%nat = Some (Some (VStr "bob.k")) ∧
  column_values upgraded_sample "listings" "owner_id" !! 1%nat = Some (Some (VStr "carol")).
Proof.
  destruct (upgrade_rekeys_by_email_prefix Sample.prior upgraded_sample)
    as [Husers Hfks].
  - exact upgrade_sample.
  - split.
    + apply (Husers 1%nat "bob.k@college.edu"). vm_compute. reflexivity.
    + apply (Hfks "listings" "owner_id" 1%nat 5 2%nat "carol@cuiatk.edu.pk").
      * by apply list_elem_of_lookup_2 with 2%nat.
      * vm_compute. reflexivity.
      * vm_compute. reflexivity.
      * vm_compute. reflexivity.
Defined.

(** ** Order of the steps *)

Lemma all_before_precedes p q ops : all_before p q ops = true → precedes p q ops.
Proof.
  unfold precedes. induction ops as [|o ops IH]; simpl; [done|].
  intros [Ho Hall]%andb_true_iff i j oi oj Hi Hj Hp Hq.
  destruct j as [|j].
  - injection Hj as ->. rewrite Hq in Ho. apply andb_true_iff in Ho as [Hnp Hrest].
    destruct i as [|i].
    + injection Hi as ->. by rewrite Hp in Hnp.
    + simpl in Hi. rewrite forallb_forall in Hrest.
      apply list_elem_of_lookup_2, list_elem_of_In, Hrest in Hi.
      by rewrite Hp in Hi.
  - destruct i as [|i]; [lia|]. simpl in Hi, Hj.
    specialize (IH Hall i j oi oj Hi Hj Hp Hq). lia.
Qed.

(** ** Foreign keys before and after *)


Lemma upgrade_creates d d' t c :
  (t, c) ∈ tables_with_user_fks →
  upgrade d = OK d' →
  find_constraint d' t (fkey_name t [c])
  = Some (ForeignKey [c] "users" ["id"] (written_ondelete t c)).
Proof.
  unfold upgrade, tables_with_user_fks. intros Hin H.
  repeat (apply elem_of_cons in Hin as [[= -> ->]|Hin]);
    [..|by apply elem_of_nil in Hin].
  all: match goal with
       | |- find_constraint _ ?t ?n0 = _ =>
           let n := eval vm_compute in n0 in
           change n0 with n;
           cut_last_constraint t n in H as d3 d4 Hrun3 Hcreate Hc;
           rewrite Hc; apply exec_create_foreign_key in Hcreate;
           exact Hcreate
       end.
Qed.

(** After a completed [upgrade], the constraints that reference [users.id]
    are the seventeen foreign keys it creates, provided none referenced a
    column [users.new_id] before (there was no such column). *)
Lemma upgrade_user_fks_exact d d' k :
  upgrade d = OK d' →
  forallb (λ k, negb (references k "users" "new_id")) (db_constraints d) = true →
  k ∈ db_constraints d' ∧ references k "users" "id" = true ↔
  k ∈ foreign_keys_created upgrade_ops.
Proof.
  unfold upgrade. intros H Hnew.
  assert (filter (λ k, references k "users" "id") (created_by upgrade_ops)
          = foreign_keys_created upgrade_ops) as Hcreated
    by (vm_compute; reflexivity).
  rewrite <- Hcreated, (run_constraints _ _ _ H). clear Hcreated.
  generalize (created_by upgrade_ops). intros created.
  rewrite elem_of_app, list_elem_of_omap, list_elem_of_filter, Is_true_true.
  split; [|intros [Hr Hk]; auto].
  intros [[(k0 & Hk0 & Hsurvive)|Hk] Hr]; [|done]. exfalso.
  assert (references k0 "users" "new_id" = false) as Hk0new.
  { rewrite forallb_forall in Hnew. apply negb_true_iff, Hnew.
    by apply list_elem_of_In. }
  clear Hnew.
  match type of H with
  | run ?ops _ = _ =>
      let s := eval vm_compute in
        (split_last (is_drop_column_of "users" "id") ops) in
      match s with
      | Some (?pre, ?dc, ?rn :: ?post) =>
          assert (ops = pre ++ dc :: rn :: post) as Hops
            by (vm_compute; reflexivity);
          assert (forallb (λ o, negb (renames_in "users" o)) pre = true) as Hnoren
            by (vm_compute; reflexivity);
          assert (forallb keeps_constraints post = true) as Hkeeps
            by (vm_compute; reflexivity);
          rewrite Hops in H, Hsurvive;
          pose proof (no_surviving_reference pre post "users" "id" "new_id"
                        d d' k0 k H Hnoren Hkeeps Hk0 Hk0new Hsurvive) as Hnone
      end
  end.
  congruence.
Qed.



(** C2, as the code has it. In a completed [upgrade] each recreated foreign
    key carries the [ON DELETE] action written in its [create_foreign_key]
    call: [CASCADE] on [blocked_users.user_id], [blocked_users.blocked_by]
    and [message_reactions.user_id], none on the other fourteen, among them
    [notifications_user_id_fkey] and [verifications_user_id_fkey]. A
    constraint keeps the action it had before exactly when that was the
    written one. *)
Theorem upgrade_recreates_with_written_ondelete d d' :
  upgrade d = OK d' →
  (∀ t c, (t, c) ∈ tables_with_user_fks →
     ondelete_of d' t (fkey_name t [c]) = Some (written_ondelete t c) ∧
     (ondelete_of d' t (fkey_name t [c]) = ondelete_of d t (fkey_name t [c]) ↔
      ondelete_of d t (fkey_name t [c]) = Some (written_ondelete t c))) ∧
  ondelete_of d' "notifications" "notifications_user_id_fkey" = Some None ∧
  ondelete_of d' "verifications" "verifications_user_id_fkey" = Some None.
Proof.
  intros H.
  assert (∀ t c, (t, c) ∈ tables_with_user_fks →
            ondelete_of d' t (fkey_name t [c]) = Some (written_ondelete t c)) as Hw.
  { intros t c Hin. unfold ondelete_of. by rewrite (upgrade_creates d d' t c). }
  split; [|split].
  - intros t c Hin. split; [by apply Hw|]. rewrite (Hw t c Hin).
    split; congruence.
  - apply (Hw "notifications" "user_id"). by apply list_elem_of_lookup_2 with 3%nat.
  - apply (Hw "verifications" "user_id"). by apply list_elem_of_lookup_2 with 4%nat.
Qed.

Lemma upgrade_recreates_with_written_ondelete_witness :
  ondelete_of upgraded_sample "notifications" "notifications_user_id_fkey" = Some None ∧
  ondelete_of upgraded_sample "verifications" "verifications_user_id_fkey" = Some None.
Proof.
  destruct (upgrade_recreates_with_written_ondelete Sample.prior upgraded_sample)
    as (_ & Hn & Hv).
  - by apply OK_from_OK.
  - by split.
Defined.

(** C2, as stated, fails: with both cascade-delete migrations applied first,
    [notifications_user_id_fkey] and [verifications_user_id_fkey] are
    [ON DELETE CASCADE] before [upgrade] and have no [ON DELETE] action
    after it. *)
Lemma upgrade_keeps_ondelete_counterexample :
  Enable_cascade_delete_on_notifications.upgrade Sample.prior
    ≫= Enable_cascade_delete_on_verifications.upgrade = OK cascaded_sample ∧
  upgrade cascaded_sample = OK upgraded_cascaded_sample ∧
  ondelete_of cascaded_sample "notifications" "notifications_user_id_fkey"
    = Some (Some "CASCADE") ∧
  ondelete_of upgraded_cascaded_sample "notifications" "notifications_user_id_fkey"
    = Some None ∧
  ondelete_of cascaded_sample "verifications" "verifications_user_id_fkey"
    = Some (Some "CASCADE") ∧
  ondelete_of upgraded_cascaded_sample "verifications" "verifications_user_id_fkey"
    = Some None.
Proof.
  split; [by apply OK_from_OK|]. split; [by apply OK_from_OK|].
  repeat split; vm_compute; reflexivity.
Qed.

(** Run the other way round, the cascade-delete migrations find the plain
    foreign keys [upgrade] left and make them [CASCADE]. *)
Lemma cascade_after_upgrade d d1 d2 d3 :
  upgrade d = OK d1 →
  Enable_cascade_delete_on_notifications.upgrade d1 = OK d2 →
  Enable_cascade_delete_on_verifications.upgrade d2 = OK d3 →
  ondelete_of d3 "notifications" "notifications_user_id_fkey" = Some (Some "CASCADE") ∧
  ondelete_of d3 "verifications" "verifications_user_id_fkey" = Some (Some "CASCADE").
Proof.
  intros _ H2 H3.
  unfold Enable_cascade_delete_on_notifications.upgrade,
    Enable_cascade_delete_on_notifications.upgrade_ops in H2.
  unfold Enable_cascade_delete_on_verifications.upgrade,
    Enable_cascade_delete_on_verifications.upgrade_ops in H3.
  unfold ondelete_of. split.
  - untouched_constraint "notifications" "notifications_user_id_fkey" in H3 as E3.
    rewrite E3.
    cut_last_constraint "notifications" "notifications_user_id_fkey" in H2
      as x y Hx Hy E2.
    rewrite E2. apply exec_create_foreign_key in Hy.
    change (default _ None) with "notifications_user_id_fkey" in Hy.
    by rewrite Hy.
  - cut_last_constraint "verifications" "verifications_user_id_fkey" in H3
      as x y Hx Hy E3.
    rewrite E3. apply exec_create_foreign_key in Hy. simpl in Hy. by rewrite Hy.
Qed.

(** C4, as the code has it: every backfill comes before every foreign-key
    drop, the drops before every column swap, backfills, drops and the
    swaps of the referencing columns before the primary-key swap, and the
    foreign-key creations after everything else. *)
Theorem upgrade_order :
  precedes is_backfill is_fk_drop upgrade_ops ∧
  precedes is_fk_drop is_column_swap upgrade_ops ∧
  precedes is_backfill is_primary_key_swap upgrade_ops ∧
  precedes is_fk_drop is_primary_key_swap upgrade_ops ∧
  precedes (λ o, is_column_swap o && negb (is_primary_key_swap o))
           is_primary_key_swap upgrade_ops ∧
  precedes (λ o, negb (is_fk_create o)) is_fk_create upgrade_ops.
Proof. repeat split; by apply all_before_precedes. Qed.

(** C4, as stated, fails: the foreign key of [listings.owner_id] is dropped
    (operation 40) after that column's values are backfilled (operation 23),
    not before. *)
Lemma upgrade_order_counterexample :
  ¬ (∀ t c, (t, c) ∈ tables_with_user_fks →
       precedes (is_drop_of (fkey_name t [c]) t) (is_backfill_of t c) upgrade_ops).
Proof.
  intros Hclaim.
  assert (("listings", "owner_id") ∈ tables_with_user_fks) as Hin
    by (by apply list_elem_of_lookup_2 with 2%nat).
  specialize (Hclaim _ _ Hin 40%nat 23%nat
    (drop_constraint "listings_owner_id_fkey" "listings" foreignkey)
    (execute (UPDATE_SET_new_fk "listings" "owner_id" false))
    eq_refl eq_refl eq_refl eq_refl).
  lia.
Qed.

(** ** The rollback *)

(** C3 at a concrete database: after [upgrade], [downgrade] raises at its
    [drop_column('users', 'id')], the seventeen foreign keys still
    referencing that column. *)
Theorem downgrade_after_upgrade_raises :
  upgrade Sample.prior = OK upgraded_sample ∧
  downgrade upgraded_sample = Raise (DependentObjectsStillExist "users" "id").
Proof. split; [by apply OK_from_OK | by vm_compute]. Qed.

(** With the foreign keys out of the way [downgrade] completes, and still
    restores neither the data nor the schema: users are renumbered 1, 2, 3
    in the order of their string ids (the third was 5), [listings.owner_id]
    keeps its strings and string type, and the index comes back non-unique
    as [upgrade] had made it unique. *)
Lemma downgrade_without_fks_does_not_restore :
  ∃ d', downgrade upgraded_sample_without_fks = OK d' ∧
    column_values Sample.prior "users" "id"
      = [Some (VInt 1); Some (VInt 2); Some (VInt 5)] ∧
    column_values d' "users" "id"
      = [Some (VInt 1); Some (VInt 2); Some (VInt 3)] ∧
    column_values Sample.prior "listings" "owner_id"
      = [Some (VInt 1); Some (VInt 5); Some (VInt 1)] ∧
    column_values d' "listings" "owner_id"
      = [Some (VStr "alice"); Some (VStr "carol"); Some (VStr "alice")] ∧
    column_of d' "listings" "owner_id" = Some (Column (String_ 100) false) ∧
    find_constraint upgraded_sample "users" "ix_users_id" = Some (Index ["id"] true) ∧
    find_constraint d' "users" "ix_users_id" = Some (Index ["id"] false) ∧
    find_constraint d' "listings" "listings_owner_id_fkey" = None.
Proof.
  exists (from_OK (downgrade upgraded_sample_without_fks)).
  split; [by apply OK_from_OK|]. repeat split; vm_compute; reflexivity.
Qed.
End Rekey.

(** * The listing endpoints *)

Section UpdateProperties.
Import Listings.

Context {pyfloat : Type}.
Variable float : Q → pyfloat.

#[local] Abbreviation update_listing := (update_listing float).
#[local] Abbreviation filtered_update_data := (filtered_update_data float).

Implicit Types (st : @State pyfloat) (obj : @Listing pyfloat) (user : User)
  (data : list (string * @pyvalue pyfloat)) (item : string * @pyvalue pyfloat).

(** ** [patch_status] *)

Lemma getattr_set_status obj v name :
  name ≠ "status" → getattr (set_status obj v) name = getattr obj name.
Proof.
  intros Hne. unfold getattr. simpl.
  repeat (case_bool_decide; [done|]). done.
Qed.

(** C6. [patch_status] checks in this order: no listing with the id, 404;
    a listing of another owner, 403; a status outside ACTIVE, SOLD,
    ARCHIVED, 422; otherwise the listing's status becomes the requested one,
    nothing else on it changes, and the stored record is what is returned. *)
Theorem patch_status_cases (listing_id : Z) (payload : ListingStatusPatch) user st :
  (listings st !! listing_id = None →
   patch_status listing_id payload user st = HTTPException 404 "Listing not found") ∧
  (∀ obj, listings st !! listing_id = Some obj →
     owner_id obj ≠ User_id user →
     patch_status listing_id payload user st = HTTPException 403 "Not owner") ∧
  (∀ obj, listings st !! listing_id = Some obj →
     owner_id obj = User_id user →
     lsp_status payload ∉ ["ACTIVE"; "SOLD"; "ARCHIVED"] →
     patch_status listing_id payload user st = HTTPException 422 "Invalid status") ∧
  (∀ obj, listings st !! listing_id = Some obj →
     owner_id obj = User_id user →
     lsp_status payload ∈ ["ACTIVE"; "SOLD"; "ARCHIVED"] →
     ∃ obj' st',
       patch_status listing_id payload user st = Return (obj', st') ∧
       status obj' = lsp_status payload ∧
       (∀ name, name ≠ "status" → getattr obj' name = getattr obj name) ∧
       listings st' = <[listing_id := obj']> (listings st) ∧
       notifications st' = notifications st).
Proof.
  unfold patch_status. repeat split.
  - by intros ->.
  - intros obj -> Hne. by rewrite bool_decide_eq_false_2.
  - intros obj -> Heq Hst.
    rewrite bool_decide_eq_true_2 by done. simpl.
    by rewrite bool_decide_eq_false_2.
  - intros obj -> Heq Hst.
    rewrite bool_decide_eq_true_2 by done. simpl.
    rewrite bool_decide_eq_true_2 by done. simpl.
    eexists _, _. split; [done|]. split; [done|]. split; [|done].
    intros name Hne. by apply getattr_set_status.
Qed.

(** ** [update_listing] *)

Lemma update_listing_Return listing_id payload user st obj' st' :
  update_listing listing_id payload user st = Return (obj', st') →
  ∃ old, listings st !! listing_id = Some old ∧
         owner_id old = User_id user ∧ is_verified user = true ∧
         let applied := foldl setattr old (filtered_update_data payload) in
         obj' = (if touches_text (filtered_update_data payload)
                 then set_search_vector applied
                        (to_tsvector "english"
                           (search_text (title applied) (description applied)
                                        (category applied)))
                 else applied) ∧
         st' = (match filtered_update_data payload with
                | [] => commit st listing_id obj'
                | _ => notify (commit st listing_id obj')
                         (notify_listing_updated (Listing_id obj') (User_id user))
                end).
Proof.
  unfold Listings.update_listing.
  destruct (listings st !! listing_id) as [old|]; [|done].
  case_bool_decide; [|done]. simpl.
  destruct (is_verified user); [|done]. simpl.
  intros [= <- <-]. exists old. done.
Qed.

(** ** What [update_listing] skips *)

Lemma lstrip_empty s : lstrip s = EmptyString ↔ whitespace_only s = true.
Proof.
  unfold whitespace_only. induction s as [|a s IH]; simpl; [done|].
  destruct (isspace a); simpl; [done|]. split; discriminate.
Qed.

Lemma whitespace_only_lstrip s : whitespace_only (lstrip s) = whitespace_only s.
Proof.
  unfold whitespace_only. induction s as [|a s IH]; simpl; [done|].
  destruct (isspace a) eqn:Ha; simpl; [done|]. by rewrite Ha.
Qed.

Lemma whitespace_only_reverse s :
  whitespace_only (reverse_string s) = whitespace_only s.
Proof.
  unfold whitespace_only, reverse_string.
  rewrite list_ascii_of_string_of_list_ascii.
  apply eq_true_iff_eq. rewrite !forallb_forall.
  split; intros H a Ha; apply H; by apply in_rev in Ha || apply in_rev.
Qed.

Lemma whitespace_only_strip s : whitespace_only (strip s) = whitespace_only s.
Proof.
  unfold strip.
  by rewrite whitespace_only_reverse, whitespace_only_lstrip,
    whitespace_only_reverse, whitespace_only_lstrip.
Qed.

(** The test [value and value.strip()] fails exactly on the empty and the
    whitespace-only strings. *)
Lemma truthy_strip s : truthy s && truthy (strip s) = negb (whitespace_only s).
Proof.
  destruct (whitespace_only s) eqn:Hs; simpl.
  - apply lstrip_empty in Hs. unfold strip. rewrite Hs. simpl.
    apply andb_false_r.
  - rewrite <- whitespace_only_strip in Hs.
    destruct s as [|a s]; [done|]. destruct (strip (String a s)); done.
Qed.

Lemma filter_item_Str name v :
  filter_item float (name, Str v)
  = if bool_decide (name ∈ ["title"; "description"; "category"])
       && negb (whitespace_only v)
    then Some (name, Str (strip v)) else None.
Proof.
  unfold filter_item. rewrite <- !andb_assoc, truthy_strip.
  repeat case_bool_decide; subst; simpl; try done;
    destruct (whitespace_only v); simpl; try done; set_solver.
Qed.

Lemma filtered_cons (x : option (string * pyvalue)) l :
  omap (filter_item float) (omap (λ x, x) (x :: l))
  = option_list (x ≫= filter_item float)
    ++ omap (filter_item float) (omap (λ x, x) l).
Proof.
  destruct x as [item|]; simpl; [|done]. by destruct (filter_item float item).
Qed.

Lemma entry_keys_Str n (f : field string) name :
  n ∈ ["title"; "description"; "category"] →
  name ∈ (option_list (dump_field n Str f ≫= filter_item float)).*1 ↔
  name = n ∧ ∃ v, f = Value v ∧ whitespace_only v = false.
Proof.
  intros Hn. destruct f as [| |v].
  - simpl. rewrite elem_of_nil. split; [done | by intros (_ & ? & ? & _)].
  - simpl. rewrite elem_of_nil. split; [done | by intros (_ & ? & ? & _)].
  - change (dump_field n Str (Value v) ≫= filter_item float)
      with (filter_item float (n, Str v)).
    rewrite filter_item_Str, bool_decide_eq_true_2 by done. simpl.
    destruct (whitespace_only v) eqn:Hv; simpl.
    + rewrite elem_of_nil. split; [done|]. intros (_ & ? & [= <-] & ?). congruence.
    + rewrite list_elem_of_singleton. split; [eauto | by intros [? _]].
Qed.

Lemma entry_keys_price (f : field Q) name :
  name ∈ (option_list (dump_field "price" Dec f ≫= filter_item float)).*1 ↔
  name = "price" ∧ ∃ q, f = Value q ∧ positive q = true.
Proof.
  destruct f as [| |q]; simpl.
  - rewrite elem_of_nil. split; [done | by intros (_ & ? & ? & _)].
  - rewrite elem_of_nil. split; [done | by intros (_ & ? & ? & _)].
  - destruct (positive q) eqn:Hq; simpl.
    + rewrite list_elem_of_singleton. split; [eauto | by intros [? _]].
    + rewrite elem_of_nil. split; [done|]. intros (_ & ? & [= <-] & ?). congruence.
Qed.

Lemma entry_keys_images (f : field (list string)) name :
  name ∈ (option_list (dump_field "images" StrList f ≫= filter_item float)).*1 ↔
  name = "images" ∧ ∃ l, f = Value l.
Proof.
  destruct f as [| |l]; simpl.
  - rewrite elem_of_nil. split; [done | by intros (_ & ? & ?)].
  - rewrite elem_of_nil. split; [done | by intros (_ & ? & ?)].
  - rewrite list_elem_of_singleton. split; [eauto | by intros [? _]].
Qed.

(** The keys of [filtered_update_data], field by field. *)
Lemma filtered_update_data_keys (payload : ListingUpdate) (name : string) :
  name ∈ (filtered_update_data payload).*1 ↔
  (name = "title" ∧ ∃ v, lu_title payload = Value v ∧ whitespace_only v = false) ∨
  (name = "description" ∧
     ∃ v, lu_description payload = Value v ∧ whitespace_only v = false) ∨
  (name = "category" ∧
     ∃ v, lu_category payload = Value v ∧ whitespace_only v = false) ∨
  (name = "price" ∧ ∃ q, lu_price payload = Value q ∧ positive q = true) ∨
  (name = "images" ∧ ∃ l, lu_images payload = Value l).
Proof.
  unfold Listings.filtered_update_data, model_dump.
  rewrite !filtered_cons. simpl omap. rewrite app_nil_r, !fmap_app, !elem_of_app.
  rewrite !entry_keys_Str, entry_keys_price, entry_keys_images; [done|..];
    set_solver.
Qed.

(** ** What [update_listing] changes *)

Lemma getattr_setattr obj item name :
  name ≠ item.1 → getattr (setattr obj item) name = getattr obj name.
Proof.
  destruct item as [n v]. simpl. intros Hne.
  destruct v; try done; repeat (case_bool_decide; subst; [|]);
    try done; unfold getattr; simpl;
    repeat (case_bool_decide; [done || congruence|]); done.
Qed.

Lemma getattr_foldl_setattr data obj name :
  name ∉ data.*1 → getattr (foldl setattr obj data) name = getattr obj name.
Proof.
  revert obj. induction data as [|item data IH]; intros obj Hnot; simpl; [done|].
  rewrite fmap_cons, not_elem_of_cons in Hnot. destruct Hnot as [Hne Hnot].
  rewrite IH by done. by apply getattr_setattr.
Qed.

Lemma getattr_set_search_vector obj v name :
  name ≠ "search_vector" → getattr (set_search_vector obj v) name = getattr obj name.
Proof.
  intros Hne. unfold getattr. simpl.
  repeat (case_bool_decide; [done|]). done.
Qed.

Lemma search_vector_foldl_setattr data obj :
  search_vector (foldl setattr obj data) = search_vector obj.
Proof.
  revert obj. induction data as [|[n v] data IH]; intros obj; simpl; [done|].
  rewrite IH. destruct v; simpl; try done; repeat case_bool_decide; done.
Qed.

Lemma touches_text_false data :
  touches_text data = false ↔
  ("title" ∉ data.*1) ∧ ("description" ∉ data.*1) ∧ ("category" ∉ data.*1).
Proof.
  unfold touches_text. simpl. rewrite !orb_false_iff, !bool_decide_eq_false.
  tauto.
Qed.


End UpdateProperties.

Section CreateProperties.
Import Listings.

Context {pyfloat UploadFile : Type}.
Variable float : Q → pyfloat.
Variable filename : UploadFile → string.
Variable save_upload : UploadFile → string → string.
Variable gen_object_key : string → string → string.
Variable public_url_for_key : string → string.

#[local] Abbreviation create_listing :=
  (create_listing float filename save_upload gen_object_key public_url_for_key).
#[local] Abbreviation update_listing := (update_listing float).
#[local] Abbreviation filtered_update_data := (filtered_update_data float).

Implicit Types (st : @State pyfloat) (obj : @Listing pyfloat) (user : User).

(** ** [create_listing] *)

(** C10. With [settings] built by [Settings()], [STORAGE_BACKEND] is "LOCAL"
    or "S3", so [create_listing] never answers 500: it answers 403 to an
    unverified user and otherwise stores the listing through one of the two
    upload paths. *)
Theorem create_listing_never_invalid_backend
    (env : gmap string string) (settings : Settings)
    (title description category : string) (price : Q)
    (images : option (list UploadFile)) user st :
  Settings_init env = Some settings →
  (STORAGE_BACKEND settings = "LOCAL" ∨ STORAGE_BACKEND settings = "S3") ∧
  (∀ detail, create_listing settings title description category price images user st
             ≠ HTTPException 500 detail) ∧
  (is_verified user = true →
   ∃ obj st', create_listing settings title description category price images user st
              = Return (obj, st') ∧
     Listings.images obj =
       if bool_decide (STORAGE_BACKEND settings = "LOCAL")
       then (λ f, save_upload f "listings") <$> default [] images
       else (λ f, public_url_for_key (gen_object_key "listings" (filename f)))
              <$> default [] images).
Proof.
  unfold Settings_init, validate_STORAGE_BACKEND. intros Hinit.
  assert (STORAGE_BACKEND settings ∈ ["LOCAL"; "S3"]) as Hin.
  { destruct (env !! "STORAGE_BACKEND") as [v|]; simpl in Hinit.
    - case_bool_decide; [|done]. by injection Hinit as <-.
    - injection Hinit as <-. simpl. set_solver. }
  assert (STORAGE_BACKEND settings = "LOCAL" ∨ STORAGE_BACKEND settings = "S3")
    as Hor by set_solver.
  split; [done|]. unfold Listings.create_listing. split.
  - intros detail. destruct (is_verified user); simpl; [|done].
    destruct Hor as [-> | ->]; done.
  - intros ->. simpl. destruct Hor as [-> | ->]; simpl.
    + by eexists _, _.
    + eexists _, _. split; [done|]. simpl. by rewrite <- list_fmap_compose.
Qed.

(** ** Notifications *)


(** ** Unverified users *)

(** C9, as the code has it. An unverified user gets 403 from
    [create_listing] whatever the arguments; from [update_listing] and
    [delete_listing] 404 when the listing does not exist and 403 when it
    does, with "User must be verified" on a listing of their own.
    [patch_status] never reads [is_verified]: on a listing of their own the
    same user changes the status to any of ACTIVE, SOLD, ARCHIVED, and gets
    422 for any other status. *)
Theorem unverified_user_responses (settings : Settings)
    (title description category : string) (price : Q)
    (images : option (list UploadFile)) (listing_id : Z)
    (update : ListingUpdate) (patch : ListingStatusPatch) user st :
  is_verified user = false →
  create_listing settings title description category price images user st
    = HTTPException 403 "User must be verified" ∧
  (listings st !! listing_id = None →
   update_listing listing_id update user st = HTTPException 404 "Listing not found" ∧
   @delete_listing pyfloat listing_id user st = HTTPException 404 "Listing not found") ∧
  (∀ obj, listings st !! listing_id = Some obj →
     (∃ detail, update_listing listing_id update user st = HTTPException 403 detail) ∧
     (∃ detail, delete_listing listing_id user st = HTTPException 403 detail) ∧
     (owner_id obj = User_id user →
      update_listing listing_id update user st
        = HTTPException 403 "User must be verified" ∧
      delete_listing listing_id user st = HTTPException 403 "User must be verified" ∧
      (lsp_status patch ∈ ["ACTIVE"; "SOLD"; "ARCHIVED"] →
       ∃ obj' st', patch_status listing_id patch user st = Return (obj', st') ∧
                   status obj' = lsp_status patch ∧
                   listings st' !! listing_id = Some obj') ∧
      (lsp_status patch ∉ ["ACTIVE"; "SOLD"; "ARCHIVED"] →
       patch_status listing_id patch user st = HTTPException 422 "Invalid status"))) ∧
  (∀ user', User_id user' = User_id user →
     @patch_status pyfloat listing_id patch user' st
     = patch_status listing_id patch user st).
Proof.
  intros Hu. unfold Listings.create_listing, Listings.update_listing,
    delete_listing, patch_status. rewrite Hu. simpl.
  split; [done|]. split; [by intros ->|]. split.
  - intros obj ->. split; [|split].
    + case_bool_decide; simpl; eauto.
    + case_bool_decide; simpl; eauto.
    + intros Heq. rewrite bool_decide_eq_true_2 by done. simpl.
      split; [done|]. split; [done|]. split.
      * intros Hin. rewrite bool_decide_eq_true_2 by done. simpl.
        eexists _, _. split; [done|]. split; [done|]. simpl.
        by rewrite lookup_insert_eq.
      * intros Hnot. by rewrite bool_decide_eq_false_2.
  - intros user' ->. done.
Qed.
End CreateProperties.

(** ** The listing endpoints on the test data *)

Section ListingExamples.
Import Listings.

Lemma patch_status_cases_witness :
  ∃ obj' st',
    patch_status 7 {| lsp_status := "SOLD" |} alice sample_state = Return (obj', st') ∧
    status obj' = "SOLD" ∧
    (∀ name, name ≠ "status" → getattr obj' name = getattr bike name) ∧
    listings st' = <[7 := obj']> (listings sample_state) ∧
    notifications st' = notifications sample_state.
Proof.
  destruct (patch_status_cases 7 {| lsp_status := "SOLD" |} alice sample_state)
    as (_ & _ & _ & Hok).
  apply (Hok bike).
  - reflexivity.
  - reflexivity.
  - simpl. by apply list_elem_of_lookup_2 with 1%nat.
Defined.

Lemma create_listing_never_invalid_backend_witness :
  ∃ obj st',
    create_listing_Q {| STORAGE_BACKEND := "LOCAL"; S3_BUCKET := None |}
      "Desk" "Oak desk" "furniture" (45 # 1) (Some ["desk.png"]) alice sample_state
    = Return (obj, st') ∧
    images obj = ["/uploads/listings/desk.png"].
Proof.
  destruct (create_listing_never_invalid_backend (λ q : Q, q) (λ f : string, f)
              (λ f subdir, "/uploads/" +:+ subdir +:+ "/" +:+ f)
              (λ subdir name, subdir +:+ "/" +:+ name)
              (λ key, "https://bucket.s3.amazonaws.com/" +:+ key)
              ∅ {| STORAGE_BACKEND := "LOCAL"; S3_BUCKET := None |}
              "Desk" "Oak desk" "furniture" (45 # 1) (Some ["desk.png"])
              alice sample_state) as (_ & _ & Hstored).
  - reflexivity.
  - destruct Hstored as (obj & st' & Hreturn & Himages); [reflexivity|].
    exists obj, st'. split; [exact Hreturn|]. rewrite Himages. reflexivity.
Defined.



Lemma unverified_user_responses_witness :
  create_listing_Q {| STORAGE_BACKEND := "S3"; S3_BUCKET := Some "campus" |}
    "Desk" "Oak desk" "furniture" (45 # 1) None alice_unverified sample_state
    = HTTPException 403 "User must be verified" ∧
  update_listing_Q 7 (retitle "Red bike") alice_unverified sample_state
    = HTTPException 403 "User must be verified" ∧
  (∃ obj' st', patch_status 7 {| lsp_status := "ARCHIVED" |} alice_unverified sample_state
               = Return (obj', st') ∧ status obj' = "ARCHIVED").
Proof.
  destruct (unverified_user_responses (λ q : Q, q) (λ f : string, f)
              (λ f subdir, "/uploads/" +:+ subdir +:+ "/" +:+ f)
              (λ subdir name, subdir +:+ "/" +:+ name)
              (λ key, "https://bucket.s3.amazonaws.com/" +:+ key)
              {| STORAGE_BACKEND := "S3"; S3_BUCKET := Some "campus" |}
              "Desk" "Oak desk" "furniture" (45 # 1) None
              7 (retitle "Red bike") {| lsp_status := "ARCHIVED" |}
              alice_unverified sample_state) as (Hcreate & _ & Hexists & _).
  - reflexivity.
  - split; [exact Hcreate|].
    destruct (Hexists bike eq_refl) as (_ & _ & Hown).
    destruct (Hown eq_refl) as (Hupdate & _ & Hpatch & _).
    split; [exact Hupdate|].
    destruct Hpatch as (obj' & st' & Hp & Hs & _).
    + simpl. by apply list_elem_of_lookup_2 with 2%nat.
    + by exists obj', st'.
Defined.


(** C9, as stated, fails: on a listing id that does not exist an unverified
    user gets 404, not 403, from [update_listing] and [delete_listing]; and
    on their own listing [patch_status] refuses a status outside the three. *)
Lemma unverified_user_counterexample :
  is_verified alice_unverified = false ∧
  update_listing_Q 99 (retitle "Red bike") alice_unverified sample_state
    = HTTPException 404 "Listing not found" ∧
  delete_listing 99 alice_unverified sample_state
    = HTTPException 404 "Listing not found" ∧
  owner_id bike = User_id alice_unverified ∧
  patch_status 7 {| lsp_status := "GONE" |} alice_unverified sample_state
    = HTTPException 422 "Invalid status".
Proof. repeat split; vm_compute; reflexivity. Qed.

(** Not part of C8's amended statement: an empty [images] list is applied. *)
Lemma update_listing_applies_empty_images :
  ∃ obj' st',
    update_listing_Q 7 {| lu_title := Unset; lu_description := Unset;
                          lu_category := Unset; lu_price := Unset;
                          lu_images := Value [] |} alice sample_state
      = Return (obj', st') ∧
    images bike = ["/uploads/listings/bike.jpg"] ∧ images obj' = [].
Proof. eexists _, _. split; [vm_compute; reflexivity|]. by split. Qed.
End ListingExamples.

(** * Further properties of the migrations *)

Tactic Notation "cut_at" constr(p) "in" hyp(H)
    "as" ident(d1) ident(d2) ident(H1) ident(H2) ident(H3) :=
  match type of H with
  | run ?ops ?d = OK ?d' =>
      let s := eval vm_compute in (split_last p ops) in
      match s with
      | Some (?pre, ?o, ?post) =>
          let E := fresh "E" in
          assert (split_last p ops = Some (pre, o, post))
            as E by (vm_compute; reflexivity);
          destruct (run_split_last p ops pre o post d d' E H)
            as (d1 & d2 & H1 & H2 & H3 & _);
          clear E
      end
  end.

(** ** No operation adds, deletes or reorders rows, or creates or drops a table *)

Lemma table_rows_insert d t t' T T' :
  db_tables d !! t' = Some T →
  List.length (tbl_rows T') = List.length (tbl_rows T) →
  List.length (from_option tbl_rows [] (<[t' := T']> (db_tables d) !! t))
  = List.length (table_rows d t).
Proof.
  intros HT Hlen. unfold table_rows.
  destruct (decide (t' = t)) as [<-|Hne].
  - rewrite lookup_insert_eq, HT. done.
  - rewrite lookup_insert_ne by done. by destruct (db_tables d !! t).
Qed.

Lemma table_rows_from_option d t :
  table_rows d t = from_option tbl_rows [] (db_tables d !! t).
Proof. unfold table_rows. by destruct (db_tables d !! t). Qed.

Lemma update_rows_length d d' t' T f t :
  update_rows d t' T f = OK d' →
  db_tables d !! t' = Some T →
  List.length (table_rows d' t) = List.length (table_rows d t).
Proof.
  unfold update_rows. intros H HT. inv_OK. subst d'.
  rewrite (table_rows_from_option (set_table _ _ _)). simpl.
  eapply table_rows_insert; [eassumption|]. simpl.
  match goal with E : mapM _ _ = OK _ |- _ => apply mapM_OK in E; rename E into HF end.
  symmetry. by eapply Forall2_length.
Qed.

Lemma exec_statement_length s d d' t :
  exec_statement s d = OK d' →
  List.length (table_rows d' t) = List.length (table_rows d t).
Proof.
  destruct s; simpl; intros H; inv_OK;
    solve [ eapply update_rows_length; eassumption | by subst d' ].
Qed.

Lemma exec_length o d d' t :
  exec o d = OK d' → List.length (table_rows d' t) = List.length (table_rows d t).
Proof.
  intros H.
  destruct o as [t' c' ty nl|t' c' nl rn|n t' cs|n t' ty|n t'|t' c'|n t' cs
                |n t' cs u|n t' rf cs rcs od|s]; simpl in H.
  - inv_OK. subst d'. rewrite (table_rows_from_option (set_table _ _ _)). simpl.
    eapply table_rows_insert; [eassumption|]. simpl. apply length_fmap.
  - inv_OK.
    assert (List.length (table_rows x t) = List.length (table_rows d t)) as <-.
    { destruct nl; [|by inv_OK; subst]. unfold set_nullable in *. inv_OK.
      subst x. rewrite (table_rows_from_option (set_table _ _ _)). simpl.
      by eapply table_rows_insert. }
    destruct rn as [c''|]; [|by inv_OK; subst].
    unfold rename_column in H. inv_OK. subst d'.
    rewrite table_rows_from_option. simpl.
    eapply table_rows_insert; [eassumption|]. simpl. apply length_fmap.
  - inv_OK. by subst d'.
  - inv_OK. by subst d'.
  - inv_OK. by subst d'.
  - inv_OK. subst d'. rewrite table_rows_from_option. simpl.
    eapply table_rows_insert; [eassumption|]. simpl. apply length_fmap.
  - inv_OK. subst d'. rewrite table_rows_from_option. simpl.
    by eapply table_rows_insert.
  - inv_OK. by subst d'.
  - inv_OK. by subst d'.
  - by eapply exec_statement_length.
Qed.

Lemma run_length ops d d' t :
  run ops d = OK d' → List.length (table_rows d' t) = List.length (table_rows d t).
Proof.
  revert d. induction ops as [|o ops IH]; intros d H; simpl in H.
  - by injection H as <-.
  - inv_OK. rewrite (IH _ H). by eapply exec_length.
Qed.

Section FurtherRekey.
Import Change_user_id_to_email_prefix.



(** ** The columns [upgrade] leaves alone *)

Lemma touches_footprint o t c : touches o t c = true → (t, c) ∈ footprint o.
Proof.
  destruct o as [t' c' ty nl|t' c' nl [c''|]|n t' cs|n t' ty|n t'|t' c'|n t' cs
                |n t' cs u|n t' rf cs rcs od|[|t' c' w|n|i u]]; simpl;
    try done; intros H%bool_decide_eq_true.
  - destruct H as [-> ->]. apply list_elem_of_here.
  - destruct H as [-> [->| ->]]; [apply list_elem_of_here|].
    apply list_elem_of_further, list_elem_of_here.
  - destruct H as [-> ->]. apply list_elem_of_here.
  - destruct H as [<- <-]. apply list_elem_of_here.
  - destruct H as [-> <-]. apply list_elem_of_here.
  - destruct H as [<- <-]. apply list_elem_of_here.
Qed.

Lemma run_frame_footprint (cols : list (string * string)) ops d d' t c :
  forallb (λ o, forallb (λ p, bool_decide (p ∈ cols)) (footprint o)) ops = true →
  (t, c) ∉ cols →
  run ops d = OK d' →
  column_values d' t c = column_values d t c.
Proof.
  intros Hall Hnot. apply run_frame.
  rewrite forallb_forall in Hall. apply forallb_forall. intros o Ho.
  destruct (touches o t c) eqn:Ht; [|done]. exfalso. apply Hnot.
  apply touches_footprint in Ht. specialize (Hall o Ho).
  rewrite forallb_forall in Hall.
  apply list_elem_of_In, Hall in Ht. by apply bool_decide_eq_true in Ht.
Qed.

(** X3. A completed [upgrade] changes no stored value outside the columns it
    re-keys: [users.id], [users.new_id], the seventeen referencing columns
    and their [new_] twins. Every other column of every table, [users.email]
    among them, holds after it what it held before. *)
Theorem upgrade_changes_only_rekeyed_columns d d' t c :
  upgrade d = OK d' →
  (t, c) ∉ rekeyed_columns →
  column_values d' t c = column_values d t c.
Proof.
  intros H Hnot. eapply (run_frame_footprint rekeyed_columns); [|done|exact H].
  vm_compute. reflexivity.
Qed.

Lemma upgrade_changes_only_rekeyed_columns_witness :
  column_values upgraded_sample "users" "email"
  = [Some (VStr "alice@uni.edu"); Some (VStr "bob.k@college.edu");
     Some (VStr "carol@cuiatk.edu.pk")].
Proof.
  rewrite (upgrade_changes_only_rekeyed_columns Sample.prior upgraded_sample).
  - reflexivity.
  - by apply OK_from_OK.
  - apply (bool_decide_unpack _). vm_compute. exact I.
Defined.

(** ** NULL references *)

Lemma exec_UPDATE_SET_new_fk_null d d' t c i :
  exec (execute (UPDATE_SET_new_fk t c true)) d = OK d' →
  column_values d t c !! i = Some None →
  column_values d' t ("new_" +:+ c) !! i = column_values d t ("new_" +:+ c) !! i.
Proof.
  simpl. intros H (r & Hr & Hk)%column_values_lookup. inv_OK.
  destruct (update_rows_values _ _ _ _ _ ("new_" +:+ c) _ _ H Hx Hr)
    as (r' & Hf & ->).
  rewrite Hk in Hf. simpl in Hf. injection Hf as <-.
  symmetry. apply column_values_lookup. eauto.
Qed.

(** X4. In the three columns the script treats as nullable
    ([reports.reported_user_id], [reports.reviewed_by],
    [admin_activity_log.admin_id]) a row that held NULL holds NULL after a
    completed [upgrade]. *)
Theorem upgrade_keeps_null_references d d' t c i :
  upgrade d = OK d' →
  (t, c) ∈ [("reports", "reported_user_id"); ("reports", "reviewed_by");
            ("admin_activity_log", "admin_id")] →
  column_values d t c !! i = Some None →
  column_values d' t c !! i = Some None.
Proof.
  unfold upgrade. intros H Hin Hnull.
  repeat (apply elem_of_cons in Hin as [[= -> ->]|Hin]);
    [..|by apply elem_of_nil in Hin].
  all: match goal with
       | |- column_values _ ?t ?c !! _ = _ =>
           let nc := eval vm_compute in ("new_" +:+ c) in
           cut_last t c in H as d3 d4 Hrun3 Hren Hc;
           apply exec_rename_values in Hren; rewrite Hc, Hren;
           cut_last t nc in Hrun3 as d1 d2 Hrun1 Hupd Hnew;
           rewrite Hnew;
           untouched t c in Hrun1 as Hc1;
           rewrite <- Hc1 in Hnull;
           pose proof (exec_UPDATE_SET_new_fk_null _ _ _ _ _ Hupd Hnull) as Hsame;
           change ("new_" +:+ c) with nc in Hsame; rewrite Hsame;
           cut_last t nc in Hrun1 as d5 d6 Hrun5 Hadd Hadded;
           rewrite Hadded;
           destruct (column_values_same_rows d1 t c nc i) as [v Hv];
             [by rewrite Hnull|];
           rewrite Hadded in Hv; rewrite Hv;
           by rewrite (exec_add_column_values _ _ _ _ _ _ _ _ Hadd Hv)
       end.
Qed.

Lemma upgrade_keeps_null_references_witness :
  column_values upgraded_sample "reports" "reviewed_by" !! 0%nat = Some None.
Proof.
  apply (upgrade_keeps_null_references Sample.prior).
  - by apply OK_from_OK.
  - by apply list_elem_of_lookup_2 with 1%nat.
  - reflexivity.
Defined.

(** ** The new key of [users] *)

Lemma fields_head delim s :
  ∃ f fs, fields delim s = f :: fs ∧ contains delim f = false.
Proof.
  induction s as [|a s (f & fs & Hf & Hc)]; simpl.
  - by exists EmptyString, [].
  - destruct (Ascii.eqb a delim) eqn:Ha.
    + by exists EmptyString, (fields delim s).
    + rewrite Hf. exists (String a f), fs. split; [done|]. simpl.
      by rewrite Ha, Hc.
Qed.

Lemma SPLIT_PART_1_no_delim delim s : contains delim (SPLIT_PART s delim 1) = false.
Proof.
  unfold SPLIT_PART. destruct (fields_head delim s) as (f & fs & -> & Hc). done.
Qed.

Lemma exec_add_column_column d d' t c ty nl :
  exec (add_column t c ty nl) d = OK d' →
  column_of d' t c = Some (Column ty nl).
Proof.
  simpl. intros H. inv_OK. subst d'. unfold column_of. simpl.
  rewrite lookup_insert_eq. simpl. by rewrite lookup_insert_eq.
Qed.

Lemma exec_UPDATE_users_SET_new_id_prefix_row d d' i ve :
  exec (execute UPDATE_users_SET_new_id_prefix) d = OK d' →
  column_values d "users" "new_id" !! i = Some None →
  column_values d "users" "email" !! i = Some ve →
  ∃ cn v, column_of d "users" "new_id" = Some cn ∧
          SPLIT_PART_at_1 ve = OK v ∧
          store "users" "new_id" cn v = OK v ∧
          column_values d' "users" "new_id" !! i = Some v.
Proof.
  simpl. intros H (r & Hr & Hnew)%column_values_lookup
    (r2 & Hr2 & Hemail)%column_values_lookup.
  assert (r2 = r) as -> by congruence. inv_OK.
  destruct (update_rows_values _ _ _ _ _ "new_id" _ _ H Hx Hr) as (r' & Hf & ->).
  rewrite Hnew, Hemail in Hf. inv_OK.
  match goal with E : store _ _ _ _ = OK _ |- _ =>
    pose proof (store_OK _ _ _ _ _ E) as ->; rename E into Hstore end.
  subst r'. eexists _, _. split; [|split; [eassumption|split; [exact Hstore|]]].
  - unfold column_of. rewrite Hx. simpl. eassumption.
  - by rewrite set_cell_lookup_eq.
Qed.

Lemma upgrade_users_id_row d d' i ve :
  upgrade d = OK d' →
  column_values d "users" "email" !! i = Some ve →
  ∃ v, SPLIT_PART_at_1 ve = OK v ∧
       store "users" "new_id" (Column (String_ 100) true) v = OK v ∧
       column_values d' "users" "id" !! i = Some v.
Proof.
  unfold upgrade. intros H Hemail.
  cut_last "users" "id" in H as d3 d4 Hrun3 Hren Hid.
  apply exec_rename_values in Hren. rewrite Hid, Hren. clear Hid Hren H d4.
  cut_last "users" "new_id" in Hrun3 as d1 d2 Hrun1 Hupd Hnew.
  rewrite Hnew. clear Hnew Hrun3 d3.
  apply run_cons in Hrun1 as (dm & Hadd & [= ->]).
  assert (column_values d1 "users" "email" = column_values d "users" "email")
    as Hemail1 by (by apply (exec_frame _ _ _ "users" "email") in Hadd).
  destruct (column_values_same_rows d1 "users" "email" "new_id" i) as [v0 Ev].
  { rewrite Hemail1, Hemail. eauto. }
  pose proof (exec_add_column_values _ _ _ _ _ _ _ _ Hadd Ev) as ->.
  rewrite <- Hemail1 in Hemail.
  destruct (exec_UPDATE_users_SET_new_id_prefix_row _ _ _ _ Hupd Ev Hemail)
    as (cn & v & Hcn & Hsplit & Hstore & Hv).
  rewrite (exec_add_column_column _ _ _ _ _ _ Hadd) in Hcn.
  injection Hcn as <-. eauto.
Qed.

Lemma omap_NoDup_lookup {A B} (f : A → option B) (l : list A) i j x y b :
  NoDup (omap f l) →
  l !! i = Some x → l !! j = Some y → f x = Some b → f y = Some b → i = j.
Proof.
  revert i j. induction l as [|a l IH]; intros i j Hnd Hi Hj Hx Hy; [done|].
  rewrite omap_cons in Hnd.
  assert (∀ z, z ∈ l → f z = Some b → b ∈ omap f l) as Hin.
  { intros z Hz Hfz. apply list_elem_of_omap. eauto. }
  destruct i as [|i], j as [|j]; simpl in Hi, Hj.
  - done.
  - injection Hi as ->. rewrite Hx in Hnd. apply NoDup_cons in Hnd as [Hnot _].
    exfalso. apply Hnot. eapply Hin; [by eapply list_elem_of_lookup_2 | done].
  - injection Hj as ->. rewrite Hy in Hnd. apply NoDup_cons in Hnd as [Hnot _].
    exfalso. apply Hnot. eapply Hin; [by eapply list_elem_of_lookup_2 | done].
  - f_equal. apply IH; try done.
    destruct (f a); [by apply NoDup_cons in Hnd as [_ ?] | done].
Qed.

(** A primary key on one column: no NULL and no value twice. *)
Lemma exec_create_primary_key_values d d' n t c :
  exec (create_primary_key n t [c]) d = OK d' →
  (∀ i, column_values d t c !! i ≠ Some None) ∧
  (∀ i j v, column_values d t c !! i = Some (Some v) →
            column_values d t c !! j = Some (Some v) → i = j).
Proof.
  simpl. intros H. inv_OK.
  match goal with E : not_null_on _ _ = true |- _ => rename E into Hnn end.
  match goal with E : unique_on _ _ = true |- _ =>
    apply bool_decide_eq_true in E; rename E into Hnd end.
  match goal with E : db_tables d !! t = Some ?T |- _ => rename E into HT end.
  unfold column_values, table_rows. rewrite HT. split.
  - intros i. rewrite list_lookup_fmap.
    destruct (tbl_rows x !! i) as [r|] eqn:Hr; simpl; [|done].
    unfold not_null_on in Hnn. rewrite forallb_forall in Hnn.
    apply list_elem_of_lookup_2, list_elem_of_In, Hnn in Hr. simpl in Hr.
    rewrite andb_true_r in Hr. apply bool_decide_eq_true in Hr as [v Hv].
    rewrite Hv. done.
  - intros i j v. rewrite !list_lookup_fmap.
    destruct (tbl_rows x !! i) as [ri|] eqn:Hri; simpl; [|done].
    destruct (tbl_rows x !! j) as [rj|] eqn:Hrj; simpl; [|done].
    intros [= Hi] [= Hj].
    apply (omap_NoDup_lookup (row_key [c]) (tbl_rows x) i j ri rj [v] Hnd Hri Hrj).
    + unfold row_key. simpl. by rewrite Hi.
    + unfold row_key. simpl. by rewrite Hj.
Qed.

Lemma upgrade_users_id_key d d' :
  upgrade d = OK d' →
  (∀ i, column_values d' "users" "id" !! i ≠ Some None) ∧
  (∀ i j v, column_values d' "users" "id" !! i = Some (Some v) →
            column_values d' "users" "id" !! j = Some (Some v) → i = j).
Proof.
  unfold upgrade. intros H.
  cut_at (is_create_primary_key_of "users_pkey" "users") in H
    as d1 d2 Hpre Hpk Hpost.
  untouched "users" "id" in Hpost as Hsame.
  pose proof Hpk as Hpk'. apply (exec_frame _ _ _ "users" "id") in Hpk'; [|done].
  rewrite Hsame, Hpk'. by eapply exec_create_primary_key_values.
Qed.

(** X5. [upgrade] completes only when the email prefixes are pairwise
    distinct: in a completed [upgrade] two different rows of [users] never
    have emails with the same part before the first '@'. *)
Theorem upgrade_needs_distinct_prefixes d d' i j e1 e2 :
  upgrade d = OK d' →
  column_values d "users" "email" !! i = Some (Some (VStr e1)) →
  column_values d "users" "email" !! j = Some (Some (VStr e2)) →
  SPLIT_PART e1 "@" 1 = SPLIT_PART e2 "@" 1 →
  i = j.
Proof.
  intros H Hi Hj Heq.
  apply (upgrade_users_id d d' i e1 H) in Hi.
  apply (upgrade_users_id d d' j e2 H) in Hj. rewrite <- Heq in Hj.
  destruct (upgrade_users_id_key d d' H) as [_ Hkey]. by eapply Hkey.
Qed.

Lemma upgrade_needs_distinct_prefixes_witness : 1%nat = 1%nat.
Proof.
  apply (upgrade_needs_distinct_prefixes Sample.prior upgraded_sample
           1%nat 1%nat "bob.k@college.edu" "bob.k@college.edu").
  - by apply OK_from_OK.
  - reflexivity.
  - reflexivity.
  - reflexivity.
Defined.

(** X6. After a completed [upgrade] every row of [users] has an id, and it
    is the prefix of that row's email: a string of at most 100 characters
    without '@'. In particular every email was a non-NULL string. *)
Theorem upgrade_users_id_wellformed d d' i v :
  upgrade d = OK d' →
  column_values d' "users" "id" !! i = Some v →
  ∃ e, column_values d "users" "email" !! i = Some (Some (VStr e)) ∧
       v = Some (VStr (SPLIT_PART e "@" 1)) ∧
       (String.length (SPLIT_PART e "@" 1) ≤ 100)%nat ∧
       contains "@" (SPLIT_PART e "@" 1) = false.
Proof.
  intros H Hv.
  destruct (column_values d "users" "email" !! i) as [ve|] eqn:Hemail.
  - destruct (upgrade_users_id_row d d' i ve H Hemail) as (v' & Hsplit & Hstore & Hv').
    assert (v' = v) as -> by congruence.
    destruct (upgrade_users_id_key d d' H) as [Hnn _].
    destruct ve as [[z|e]|]; simpl in Hsplit; try done.
    + injection Hsplit as <-. exists e. split; [done|]. split; [done|].
      split; [|apply SPLIT_PART_1_no_delim].
      unfold store in Hstore. simpl in Hstore.
      destruct (String.length (SPLIT_PART e "@" 1) <=? 100)%nat eqn:Hle; [|done].
      by apply Nat.leb_le.
    + injection Hsplit as <-. by destruct (Hnn i).
  - exfalso. apply lookup_ge_None in Hemail. apply lookup_lt_Some in Hv.
    unfold column_values in Hemail, Hv. rewrite length_fmap in Hemail, Hv.
    rewrite (run_length _ _ _ "users" H) in Hv. lia.
Qed.

Lemma upgrade_users_id_wellformed_witness :
  ∃ e, column_values Sample.prior "users" "email" !! 2%nat = Some (Some (VStr e)) ∧
       Some (VStr "carol") = Some (VStr (SPLIT_PART e "@" 1)) ∧
       (String.length (SPLIT_PART e "@" 1) ≤ 100)%nat ∧
       contains "@" (SPLIT_PART e "@" 1) = false.
Proof.
  apply (upgrade_users_id_wellformed Sample.prior upgraded_sample).
  - by apply OK_from_OK.
  - reflexivity.
Defined.

(** X1. After a completed [upgrade] the constraints that reference
    [users.id] are exactly the seventeen foreign keys the script creates:
    nothing that referenced the old integer key is carried over, and
    nothing else is added. (No constraint may reference a column
    [users.new_id] beforehand; the script could not add that column if it
    existed.) *)
Theorem upgrade_user_fks_are_the_created_ones d d' k :
  upgrade d = OK d' →
  forallb (λ k, negb (references k "users" "new_id")) (db_constraints d) = true →
  (k ∈ db_constraints d' ∧ references k "users" "id" = true ↔
   k ∈ foreign_keys_created upgrade_ops) ∧
  List.length (foreign_keys_created upgrade_ops) = 17%nat.
Proof. intros H Hnew. split; [by apply (upgrade_user_fks_exact d d') | done]. Qed.

Lemma upgrade_user_fks_are_the_created_ones_witness :
  Constraint "favorites_user_id_fkey" "favorites"
    (ForeignKey ["user_id"] "users" ["id"] None) ∈ db_constraints upgraded_sample.
Proof.
  destruct (upgrade_user_fks_are_the_created_ones Sample.prior upgraded_sample
              (Constraint "favorites_user_id_fkey" "favorites"
                 (ForeignKey ["user_id"] "users" ["id"] None))) as [Hiff _].
  - by apply OK_from_OK.
  - reflexivity.
  - apply Hiff. by apply list_elem_of_lookup_2 with 9%nat.
Defined.
End FurtherRekey.

Section FurtherDowngrade.
Import Change_user_id_to_email_prefix.



End FurtherDowngrade.

(** ** The cascade-delete migrations *)

Section Cascade.

Lemma create_foreign_key_any_ondelete d d' n t r cs rcs od od' :
  exec (create_foreign_key n t r cs rcs od) d = OK d' →
  exec (create_foreign_key n t r cs rcs od') d
  = OK (add_constraint d (Constraint (default (fkey_name t cs) n) t
                                     (ForeignKey cs r rcs od'))).
Proof.
  simpl. intros H. inv_OK.
  repeat match goal with
  | E : db_tables d !! _ = Some _ |- _ =>
      apply get_table_OK in E; rewrite E; simpl
  | E : _ = true |- _ => rewrite E; simpl
  end.
  done.
Qed.

Lemma exec_drop_constraint_result d d' n t ty :
  exec (drop_constraint n t ty) d = OK d' →
  d' = set_constraints d
         (filter (λ k, ¬ (is_named t n k && negb (is_index k))) (db_constraints d)).
Proof. simpl. intros H. inv_OK. by subst d'. Qed.

Lemma exec_create_foreign_key_result d d' n t r cs rcs od :
  exec (create_foreign_key n t r cs rcs od) d = OK d' →
  d' = add_constraint d (Constraint (default (fkey_name t cs) n) t
                                    (ForeignKey cs r rcs od)).
Proof. simpl. intros H. inv_OK. by subst d'. Qed.

Lemma filter_idemp {A} (P : A → Prop) `{∀ x, Decision (P x)} (l : list A) :
  filter P (filter P l) = filter P l.
Proof. by apply filter_filter_keep. Qed.

(** Replacing the foreign key named [n] of table [t] by one with the given
    [ON DELETE]: what the database is afterwards. *)
Lemma replace_foreign_key d d' n t r cs rcs od :
  run [drop_constraint n t foreignkey;
       create_foreign_key (Some n) t r cs rcs od] d = OK d' →
  is_Some (find_constraint d t n) ∧
  db_tables d' = db_tables d ∧
  db_sequences d' = db_sequences d ∧
  db_constraints d'
  = filter (λ k, ¬ (is_named t n k && negb (is_index k))) (db_constraints d)
    ++ [Constraint n t (ForeignKey cs r rcs od)] ∧
  find_constraint d' t n = Some (ForeignKey cs r rcs od) ∧
  (∀ t' n', ¬ (t' = t ∧ n' = n) → find_constraint d' t' n' = find_constraint d t' n').
Proof.
  intros (d1 & Hdrop & (d2 & Hcreate & [= <-])%run_cons)%run_cons.
  split; [by eapply exec_drop_constraint|].
  pose proof (exec_create_foreign_key _ _ _ _ _ _ _ _ Hcreate) as Hfind.
  assert (∀ t' n', ¬ (t' = t ∧ n' = n) →
            find_constraint d2 t' n' = find_constraint d t' n') as Hframe.
  { intros t' n' Hne.
    assert (touches_constraint (create_foreign_key (Some n) t r cs rcs od) t' n'
            = false) as T1.
    { simpl. apply bool_decide_eq_false. intros [<- <-]. by apply Hne. }
    assert (touches_constraint (drop_constraint n t foreignkey) t' n' = false) as T2.
    { simpl. apply bool_decide_eq_false. intros [<- <-]. by apply Hne. }
    rewrite (exec_frame_constraint _ _ _ _ _ T1 Hcreate).
    exact (exec_frame_constraint _ _ _ _ _ T2 Hdrop). }
  apply exec_drop_constraint_result in Hdrop. subst d1.
  apply exec_create_foreign_key_result in Hcreate. subst d2.
  done.
Qed.

(** X8. Revision 491b07444172, [upgrade]: the foreign key
    [verifications_user_id_fkey] must exist; afterwards it is a key from
    [verifications.user_id] to [users.id] with [ON DELETE CASCADE], every
    other constraint is as before and no stored value has changed. *)
Theorem verifications_upgrade_sets_cascade d d' :
  Enable_cascade_delete_on_verifications.upgrade d = OK d' →
  is_Some (find_constraint d "verifications" "verifications_user_id_fkey") ∧
  ondelete_of d' "verifications" "verifications_user_id_fkey" = Some (Some "CASCADE") ∧
  find_constraint d' "verifications" "verifications_user_id_fkey"
    = Some (ForeignKey ["user_id"] "users" ["id"] (Some "CASCADE")) ∧
  (∀ t n, ¬ (t = "verifications" ∧ n = "verifications_user_id_fkey") →
          find_constraint d' t n = find_constraint d t n) ∧
  db_tables d' = db_tables d.
Proof.
  intros H. apply replace_foreign_key in H as (Hsome & Ht & _ & _ & Hfind & Hother).
  unfold ondelete_of. rewrite Hfind. done.
Qed.

Lemma verifications_upgrade_sets_cascade_witness :
  ondelete_of (from_OK (Enable_cascade_delete_on_verifications.upgrade Sample.prior))
    "verifications" "verifications_user_id_fkey" = Some (Some "CASCADE").
Proof.
  destruct (verifications_upgrade_sets_cascade Sample.prior
              (from_OK (Enable_cascade_delete_on_verifications.upgrade Sample.prior)))
    as (_ & Hod & _).
  - by apply OK_from_OK.
  - exact Hod.
Defined.

(** X9. Revision 491b07444172 has a working rollback: after a completed
    [upgrade], [downgrade] always completes, and leaves the tables and every
    other constraint as they were before [upgrade], with
    [verifications_user_id_fkey] a plain foreign key (no [ON DELETE]) from
    [verifications.user_id] to [users.id]. *)
Theorem verifications_downgrade_after_upgrade d d1 :
  Enable_cascade_delete_on_verifications.upgrade d = OK d1 →
  ∃ d2, Enable_cascade_delete_on_verifications.downgrade d1 = OK d2 ∧
        db_tables d2 = db_tables d ∧
        db_sequences d2 = db_sequences d ∧
        db_constraints d2
        = filter (λ k, ¬ (is_named "verifications" "verifications_user_id_fkey" k
                          && negb (is_index k))) (db_constraints d)
          ++ [Constraint "verifications_user_id_fkey" "verifications"
                (ForeignKey ["user_id"] "users" ["id"] None)] ∧
        ondelete_of d2 "verifications" "verifications_user_id_fkey" = Some None ∧
        (∀ t n, ¬ (t = "verifications" ∧ n = "verifications_user_id_fkey") →
                find_constraint d2 t n = find_constraint d t n).
Proof.
  intros Hup. pose proof Hup as Hup'.
  apply replace_foreign_key in Hup' as (_ & Ht1 & Hs1 & Hc1 & _ & Hother1).
  unfold Enable_cascade_delete_on_verifications.upgrade,
    Enable_cascade_delete_on_verifications.upgrade_ops in Hup.
  apply run_cons in Hup as (dm & Hdrop & (d1' & Hcreate & [= ->])%run_cons).
  pose proof (exec_drop_constraint_result _ _ _ _ _ Hdrop) as Hdm.
  pose proof (exec_create_foreign_key_result _ _ _ _ _ _ _ _ Hcreate) as Hd1.
  set (P := λ k, ¬ (is_named "verifications" "verifications_user_id_fkey" k
                    && negb (is_index k))) in *.
  assert (exec (drop_constraint "verifications_user_id_fkey" "verifications"
                  foreignkey) d1 = OK dm) as Hdrop2.
  { simpl in Hdrop |- *. inv_OK.
    match goal with E : db_tables d !! _ = Some _ |- _ => rename E into HT end.
    unfold get_table. rewrite Ht1, HT. simpl.
    rewrite Hc1. rewrite existsb_app. simpl. rewrite orb_true_r. simpl.
    f_equal. subst dm. unfold set_constraints. rewrite Ht1, Hs1. f_equal.
    fold P. rewrite filter_app, filter_idemp.
    rewrite filter_cons_False; [by rewrite app_nil_r|].
    unfold P. simpl. tauto. }
  pose proof (create_foreign_key_any_ondelete _ _ _ _ _ _ _ _ None Hcreate) as Hcreate2.
  eexists. split.
  { unfold Enable_cascade_delete_on_verifications.downgrade,
      Enable_cascade_delete_on_verifications.downgrade_ops.
    apply run_cons. exists dm. split; [exact Hdrop2|].
    apply run_cons. eexists. split; [exact Hcreate2 | done]. }
  assert (run [drop_constraint "verifications_user_id_fkey" "verifications" foreignkey;
               create_foreign_key (Some "verifications_user_id_fkey") "verifications"
                 "users" ["user_id"] ["id"] None] d
          = OK (add_constraint dm
                  (Constraint "verifications_user_id_fkey" "verifications"
                     (ForeignKey ["user_id"] "users" ["id"] None)))) as Hdirect.
  { apply run_cons. exists dm. split; [exact Hdrop|].
    apply run_cons. eexists. split; [exact Hcreate2 | done]. }
  apply replace_foreign_key in Hdirect as (_ & Ht & Hs & Hc & Hfind & Hother).
  simpl default. unfold ondelete_of. rewrite Hfind. done.
Qed.

Lemma verifications_downgrade_after_upgrade_witness :
  ∃ d2, Enable_cascade_delete_on_verifications.downgrade
          (from_OK (Enable_cascade_delete_on_verifications.upgrade Sample.prior))
        = OK d2 ∧
        ondelete_of d2 "verifications" "verifications_user_id_fkey" = Some None.
Proof.
  destruct (verifications_downgrade_after_upgrade Sample.prior
              (from_OK (Enable_cascade_delete_on_verifications.upgrade Sample.prior)))
    as (d2 & Hdown & _ & _ & _ & Hod & _).
  - by apply OK_from_OK.
  - by exists d2.
Defined.

(** X10. Revision 254ce896d541, [upgrade]: the foreign key it creates
    without a name gets the name it dropped,
    [notifications_user_id_fkey]; afterwards that is a key from
    [notifications.user_id] to [users.id] with [ON DELETE CASCADE], every
    other constraint is as before and the tables are unchanged. *)
Theorem notifications_upgrade_sets_cascade d d' :
  Enable_cascade_delete_on_notifications.upgrade d = OK d' →
  is_Some (find_constraint d "notifications" "notifications_user_id_fkey") ∧
  find_constraint d' "notifications" "notifications_user_id_fkey"
    = Some (ForeignKey ["user_id"] "users" ["id"] (Some "CASCADE")) ∧
  (∀ t n, ¬ (t = "notifications" ∧ n = "notifications_user_id_fkey") →
          find_constraint d' t n = find_constraint d t n) ∧
  db_tables d' = db_tables d.
Proof.
  unfold Enable_cascade_delete_on_notifications.upgrade,
    Enable_cascade_delete_on_notifications.upgrade_ops. intros H.
  assert (run [drop_constraint "notifications_user_id_fkey" "notifications" foreignkey;
               create_foreign_key (Some "notifications_user_id_fkey") "notifications"
                 "users" ["user_id"] ["id"] (Some "CASCADE")] d = OK d') as H'
    by exact H.
  apply replace_foreign_key in H' as (Hsome & Ht & _ & _ & Hfind & Hother).
  done.
Qed.

Lemma notifications_upgrade_sets_cascade_witness :
  find_constraint (from_OK (Enable_cascade_delete_on_notifications.upgrade Sample.prior))
    "notifications" "notifications_user_id_fkey"
  = Some (ForeignKey ["user_id"] "users" ["id"] (Some "CASCADE")).
Proof.
  destruct (notifications_upgrade_sets_cascade Sample.prior
              (from_OK (Enable_cascade_delete_on_notifications.upgrade Sample.prior)))
    as (_ & Hfind & _).
  - by apply OK_from_OK.
  - exact Hfind.
Defined.
End Cascade.

(** * Further properties of the listing endpoints *)

Section FurtherUpdate.
Import Listings.

Context {pyfloat : Type}.
Variable float : Q → pyfloat.

#[local] Abbreviation update_listing := (update_listing float).
#[local] Abbreviation filtered_update_data := (filtered_update_data float).

Implicit Types (st : @State pyfloat) (obj : @Listing pyfloat) (user : User)
  (data : list (string * @pyvalue pyfloat)) (item : string * @pyvalue pyfloat).

Lemma patch_status_Return (listing_id : Z) (payload : ListingStatusPatch)
    user st obj' st' :
  patch_status listing_id payload user st = Return (obj', st') →
  ∃ old, listings st !! listing_id = Some old ∧
         owner_id old = User_id user ∧
         lsp_status payload ∈ ["ACTIVE"; "SOLD"; "ARCHIVED"] ∧
         obj' = set_status old (lsp_status payload) ∧
         st' = commit st listing_id obj'.
Proof.
  unfold patch_status. destruct (listings st !! listing_id) as [old|]; [|done].
  case_bool_decide; [|done]. simpl. case_bool_decide; [|done]. simpl.
  intros [= <- <-]. by exists old.
Qed.

Lemma delete_listing_Return (listing_id : Z) user st u st' :
  delete_listing listing_id user st = Return (u, st') →
  ∃ old, listings st !! listing_id = Some old ∧
         owner_id old = User_id user ∧ is_verified user = true ∧
         listings st' = delete listing_id (listings st) ∧
         notifications st' = notifications st.
Proof.
  unfold delete_listing. destruct (listings st !! listing_id) as [old|]; [|done].
  case_bool_decide; [|done]. simpl. destruct (is_verified user); [|done]. simpl.
  intros [= <- <-]. by exists old.
Qed.

Lemma update_listing_listings (listing_id : Z) (payload : ListingUpdate)
    user st obj' st' :
  update_listing listing_id payload user st = Return (obj', st') →
  listings st' = <[listing_id := obj']> (listings st).
Proof.
  intros (old & _ & _ & _ & _ & ->)%update_listing_Return.
  by destruct (filtered_update_data payload).
Qed.

Lemma foldl_setattr_keeps data obj :
  Listing_id (foldl setattr obj data) = Listing_id obj ∧
  owner_id (foldl setattr obj data) = owner_id obj ∧
  status (foldl setattr obj data) = status obj.
Proof.
  revert obj. induction data as [|[n v] data IH]; intros obj; [done|].
  change (foldl setattr obj ((n, v) :: data))
    with (foldl setattr (setattr obj (n, v)) data).
  destruct (IH (setattr obj (n, v))) as (-> & -> & ->).
  destruct v; simpl; try done; repeat case_bool_decide; done.
Qed.

(** X12. Only the owner changes a listing: an [update_listing],
    [patch_status] or [delete_listing] call that returns was made by the
    user whose id is the listing's [owner_id]; any other user gets 403 "Not
    owner" on an existing listing, verified or not; and none of the three
    changes [owner_id]. *)
Theorem only_the_owner_changes_a_listing (listing_id : Z)
    (update : ListingUpdate) (patch : ListingStatusPatch) user st old :
  listings st !! listing_id = Some old →
  (owner_id old ≠ User_id user →
   update_listing listing_id update user st = HTTPException 403 "Not owner" ∧
   patch_status listing_id patch user st = HTTPException 403 "Not owner" ∧
   delete_listing listing_id user st = HTTPException 403 "Not owner") ∧
  (∀ obj st', update_listing listing_id update user st = Return (obj, st') →
              owner_id old = User_id user ∧ owner_id obj = owner_id old) ∧
  (∀ obj st', patch_status listing_id patch user st = Return (obj, st') →
              owner_id old = User_id user ∧ owner_id obj = owner_id old) ∧
  (∀ u st', delete_listing listing_id user st = Return (u, st') →
            owner_id old = User_id user).
Proof.
  intros Hold. split; [|split; [|split]].
  - intros Hne. unfold Listings.update_listing, patch_status, delete_listing.
    rewrite Hold. by rewrite bool_decide_eq_false_2.
  - intros obj st' H.
    pose proof H as (old' & Hold' & Hown & _)%update_listing_Return.
    assert (old' = old) as -> by congruence. split; [done|].
    apply update_listing_Return in H as (old'' & Hold'' & _ & _ & Hobj & _).
    assert (old'' = old) as -> by congruence. simpl in Hobj. subst obj.
    destruct (touches_text _); simpl; apply foldl_setattr_keeps.
  - intros obj st' (old' & Hold' & Hown & _ & -> & _)%patch_status_Return.
    assert (old' = old) as -> by congruence. done.
  - intros u st' (old' & Hold' & Hown & _)%delete_listing_Return. congruence.
Qed.

(** ** What [update_listing] applies *)

Lemma filter_item_key item item' :
  filter_item float item = Some item' → item'.1 = item.1.
Proof.
  destruct item as [n v]. unfold filter_item.
  destruct v; try done;
    repeat (match goal with |- context [if ?b then _ else _] => destruct b end);
    by intros [= <-].
Qed.

Lemma filter_item_setattr item n v obj :
  filter_item float item = Some (n, v) → getattr (setattr obj (n, v)) n = Some v.
Proof.
  destruct item as [n0 v0].
  destruct v0 as [s|q|f|l|z|t]; try done; [|unfold filter_item..].
  - rewrite filter_item_Str. case_bool_decide as Hn; simpl; [|done].
    destruct (whitespace_only s); simpl; [done|]. intros [= <- <-].
    repeat (apply elem_of_cons in Hn as [->|Hn]; [reflexivity|]).
    by apply elem_of_nil in Hn.
  - case_bool_decide as Hn; simpl; [|done].
    destruct (positive q); [|done]. intros [= <- <-]. by subst.
  - case_bool_decide as Hn; simpl; [|done]. intros [= <- <-]. by subst.
Qed.

Lemma entry_sublist {A} (n : string) (wrap : A → pyvalue) (f : field A) :
  (option_list (dump_field n wrap f ≫= filter_item float)).*1 `sublist_of` [n].
Proof.
  destruct f as [| |v]; [apply sublist_nil_l..|].
  change (dump_field n wrap (Value v) ≫= filter_item float)
    with (filter_item float (n, wrap v)).
  destruct (filter_item float (n, wrap v)) as [[n' v']|] eqn:E;
    [|apply sublist_nil_l].
  apply filter_item_key in E. simpl in E. by subst.
Qed.

Lemma filtered_update_data_NoDup (payload : ListingUpdate) :
  NoDup (filtered_update_data payload).*1.
Proof.
  assert ((filtered_update_data payload).*1 `sublist_of`
          ["title"] ++ ["description"] ++ ["category"] ++ ["price"] ++ ["images"])
    as Hsub.
  { unfold Listings.filtered_update_data, model_dump.
    rewrite !filtered_cons. simpl omap. rewrite app_nil_r, !fmap_app.
    repeat apply sublist_app; apply entry_sublist. }
  eapply sublist_NoDup; [|exact Hsub].
  apply (bool_decide_unpack _). by vm_compute.
Qed.

Lemma filtered_update_data_elem (payload : ListingUpdate) item :
  item ∈ filtered_update_data payload ↔
  ∃ item0, Some item0 ∈ [dump_field "title" Str (lu_title payload);
                         dump_field "description" Str (lu_description payload);
                         dump_field "category" Str (lu_category payload);
                         dump_field "price" Dec (lu_price payload);
                         dump_field "images" StrList (lu_images payload)] ∧
           filter_item float item0 = Some item.
Proof.
  unfold Listings.filtered_update_data, model_dump.
  rewrite list_elem_of_omap. split.
  - intros (item0 & (x & Hx & ->)%list_elem_of_omap & Hf). eauto.
  - intros (item0 & Hx & Hf). exists item0. split; [|done].
    apply list_elem_of_omap. eauto.
Qed.

Lemma foldl_setattr_applied data obj n v :
  NoDup data.*1 → (n, v) ∈ data →
  (∀ obj, getattr (setattr obj (n, v)) n = Some v) →
  getattr (foldl setattr obj data) n = Some v.
Proof.
  intros Hnodup Hin Hset. revert obj Hnodup Hin.
  induction data as [|item data IH]; intros obj Hnodup Hin.
  - by apply elem_of_nil in Hin.
  - rewrite fmap_cons in Hnodup. apply NoDup_cons in Hnodup as [Hnot Hnodup].
    change (foldl setattr obj (item :: data))
      with (foldl setattr (setattr obj item) data).
    apply elem_of_cons in Hin as [<-|Hin].
    + rewrite getattr_foldl_setattr by done. apply Hset.
    + by apply IH.
Qed.

(** The entries of [filtered_update_data] are the attributes of the
    listing that [update_listing] returns. *)
Lemma update_listing_getattr (listing_id : Z) (payload : ListingUpdate)
    user st obj' st' n v :
  update_listing listing_id payload user st = Return (obj', st') →
  (n, v) ∈ filtered_update_data payload →
  getattr obj' n = Some v.
Proof.
  intros (old & _ & _ & _ & Hobj & _)%update_listing_Return Hin.
  simpl in Hobj.
  assert (getattr (foldl setattr old (filtered_update_data payload)) n = Some v)
    as Happlied.
  { apply foldl_setattr_applied; [apply filtered_update_data_NoDup | done |].
    apply filtered_update_data_elem in Hin as (item0 & _ & Hf).
    intros obj. by eapply filter_item_setattr. }
  subst obj'. destruct (touches_text _); [|done].
  rewrite getattr_set_search_vector; [done|].
  intros ->. apply (list_elem_of_fmap_2 fst) in Hin. simpl in Hin.
  apply filtered_update_data_keys in Hin.
  destruct Hin as [[? _]|[[? _]|[[? _]|[[? _]|[? _]]]]]; discriminate.
Qed.




(** ** [strip] *)









(** ** [search_vector] *)

Lemma text_of_getattr obj obj' :
  getattr obj' "title" = getattr obj "title" →
  getattr obj' "description" = getattr obj "description" →
  getattr obj' "category" = getattr obj "category" →
  title obj' = title obj ∧ description obj' = description obj ∧
  category obj' = category obj.
Proof. by intros [= ->] [= ->] [= ->]. Qed.

Lemma update_listing_search_vector_current (listing_id : Z)
    (payload : ListingUpdate) user st old obj' st' :
  listings st !! listing_id = Some old →
  update_listing listing_id payload user st = Return (obj', st') →
  search_vector_current old → search_vector_current obj'.
Proof.
  intros Hold (old' & Hold' & _ & _ & Hobj & _)%update_listing_Return Hcur.
  assert (old' = old) as -> by congruence. simpl in Hobj. subst obj'.
  unfold search_vector_current.
  destruct (touches_text _) eqn:Htt; [done|].
  apply touches_text_false in Htt as (Ht & Hd & Hc).
  destruct (text_of_getattr old (foldl setattr old (filtered_update_data payload)))
    as (-> & -> & ->); [by apply getattr_foldl_setattr..|].
  by rewrite search_vector_foldl_setattr.
Qed.

(** ** Repeated requests *)

Lemma setattr_same obj n v : getattr obj n = Some v → setattr obj (n, v) = obj.
Proof.
  destruct obj. unfold getattr, setattr. simpl.
  repeat (case_bool_decide; [subst; intros [= <-]; simpl; done|]). done.
Qed.

Lemma foldl_setattr_same data obj :
  (∀ n v, (n, v) ∈ data → getattr obj n = Some v) → foldl setattr obj data = obj.
Proof.
  induction data as [|[n v] data IH]; intros Hall; [done|].
  change (foldl setattr obj ((n, v) :: data))
    with (foldl setattr (setattr obj (n, v)) data).
  rewrite setattr_same by (apply Hall; left).
  apply IH. intros n' v' Hin. apply Hall. by right.
Qed.

Lemma set_search_vector_same obj : set_search_vector obj (search_vector obj) = obj.
Proof. by destruct obj. Qed.

Lemma set_status_same obj : set_status obj (status obj) = obj.
Proof. by destruct obj. Qed.

(** X16. Repeating a request. A [patch_status] that returned, sent again,
    returns the same listing and leaves the state as it is. An
    [update_listing] that returned, sent again, returns the same listing
    and stores it unchanged, and when it has anything to apply it sends the
    notification a second time. *)
Theorem repeated_requests (listing_id : Z) (update : ListingUpdate)
    (patch : ListingStatusPatch) user st :
  (∀ obj st',
     patch_status listing_id patch user st = Return (obj, st') →
     patch_status listing_id patch user st' = Return (obj, st')) ∧
  (∀ obj st',
     update_listing listing_id update user st = Return (obj, st') →
     ∃ st'', update_listing listing_id update user st' = Return (obj, st'') ∧
             listings st'' = listings st' ∧
             notifications st''
             = notifications st'
               ++ (if bool_decide (filtered_update_data update = []) then []
                   else [notify_listing_updated (Listing_id obj) (User_id user)])).
Proof.
  split.
  - intros obj st' (old & Hold & Hown & Hst & -> & ->)%patch_status_Return.
    unfold patch_status at 1. simpl. rewrite lookup_insert_eq. simpl.
    rewrite bool_decide_eq_true_2 by done. simpl.
    rewrite bool_decide_eq_true_2 by done. simpl.
    change (set_status (set_status old (lsp_status patch)) (lsp_status patch))
      with (set_status old (lsp_status patch)).
    unfold commit. simpl. by rewrite insert_insert_eq.
  - intros obj st' Hret.
    pose proof Hret as (old & Hold & Hown & Hver & Hobj & Hst)%update_listing_Return.
    simpl in Hobj.
    assert (owner_id obj = User_id user ∧ Listing_id obj = Listing_id old)
      as [Hown' Hid].
    { subst obj. destruct (touches_text _); simpl;
        destruct (foldl_setattr_keeps (filtered_update_data update) old)
          as (-> & -> & _); done. }
    assert (listings st' !! listing_id = Some obj) as Hlookup.
    { rewrite (update_listing_listings _ _ _ _ _ _ Hret).
      apply lookup_insert_eq. }
    assert (foldl setattr obj (filtered_update_data update) = obj) as Hsame.
    { apply foldl_setattr_same. intros n v Hin.
      by eapply update_listing_getattr. }
    assert ((if touches_text (filtered_update_data update)
             then set_search_vector obj
                    (to_tsvector "english"
                       (search_text (Listings.title obj) (Listings.description obj)
                                    (Listings.category obj)))
             else obj) = obj) as Hsv.
    { destruct (touches_text (filtered_update_data update)) eqn:Htt; [|done].
      rewrite Hobj. reflexivity. }
    unfold Listings.update_listing at 1. rewrite Hlookup.
    rewrite bool_decide_eq_true_2 by done. simpl. rewrite Hver. simpl.
    rewrite Hsame, Hsv. eexists. split; [done|].
    destruct (filtered_update_data update) eqn:Hdata; simpl.
    + split; [by apply insert_id | by rewrite app_nil_r].
    + split; [by apply insert_id | done].
Qed.
End FurtherUpdate.

Section FurtherCreate.
Import Listings.

Context {pyfloat UploadFile : Type}.
Variable float : Q → pyfloat.
Variable filename : UploadFile → string.
Variable save_upload : UploadFile → string → string.
Variable gen_object_key : string → string → string.
Variable public_url_for_key : string → string.

#[local] Abbreviation create_listing :=
  (create_listing float filename save_upload gen_object_key public_url_for_key).
#[local] Abbreviation update_listing := (update_listing float).

Implicit Types (st : @State pyfloat) (obj : @Listing pyfloat) (user : User).

Lemma create_listing_Return settings (title description category : string)
    (price : Q) (images : option (list UploadFile)) user st obj st' :
  create_listing settings title description category price images user st
    = Return (obj, st') →
  Listing_id obj = next_listing_id st ∧
  listings st' = <[next_listing_id st := obj]> (listings st) ∧
  owner_id obj = User_id user ∧ status obj = "ACTIVE" ∧ is_verified user = true.
Proof.
  unfold Listings.create_listing. destruct (is_verified user); [|done]. simpl.
  repeat case_bool_decide; [| |done]; by intros [= <- <-].
Qed.

(** X11. What an endpoint stores is what [get_listing] serves: after a
    [create_listing], [update_listing] or [patch_status] that returns a
    listing, [get_listing] on its id returns that same listing; after a
    [delete_listing] that returns, [get_listing] on the id answers 404; and
    in all four cases [get_listing] on any other id answers as before. *)
Theorem get_listing_after (settings : Settings)
    (title description category : string) (price : Q)
    (images : option (list UploadFile)) (listing_id : Z)
    (update : ListingUpdate) (patch : ListingStatusPatch) user st :
  (∀ obj st',
     create_listing settings title description category price images user st
       = Return (obj, st') →
     get_listing (Listing_id obj) st' = Return obj ∧
     ∀ k, k ≠ Listing_id obj → get_listing k st' = get_listing k st) ∧
  (∀ obj st',
     update_listing listing_id update user st = Return (obj, st') →
     get_listing listing_id st' = Return obj ∧
     ∀ k, k ≠ listing_id → get_listing k st' = get_listing k st) ∧
  (∀ obj st',
     patch_status listing_id patch user st = Return (obj, st') →
     get_listing listing_id st' = Return obj ∧
     ∀ k, k ≠ listing_id → get_listing k st' = get_listing k st) ∧
  (∀ u st',
     delete_listing listing_id user st = Return (u, st') →
     get_listing listing_id st' = HTTPException 404 "Listing not found" ∧
     ∀ k, k ≠ listing_id → get_listing k st' = get_listing k st).
Proof.
  unfold get_listing. repeat split.
  - apply create_listing_Return in H as (-> & -> & _). by rewrite lookup_insert_eq.
  - intros k Hk. apply create_listing_Return in H as (Hid & -> & _).
    rewrite lookup_insert_ne; [done | congruence].
  - apply update_listing_listings in H as ->. by rewrite lookup_insert_eq.
  - intros k Hk. apply update_listing_listings in H as ->.
    by rewrite lookup_insert_ne.
  - apply patch_status_Return in H as (old & _ & _ & _ & _ & ->). simpl.
    by rewrite lookup_insert_eq.
  - intros k Hk. apply patch_status_Return in H as (old & _ & _ & _ & _ & ->).
    simpl. by rewrite lookup_insert_ne.
  - apply delete_listing_Return in H as (old & _ & _ & _ & -> & _).
    by rewrite lookup_delete_eq.
  - intros k Hk. apply delete_listing_Return in H as (old & _ & _ & _ & -> & _).
    by rewrite lookup_delete_ne.
Qed.

(** X15. The search vector follows the text: when every stored listing
    has the [search_vector] computed from its own title, description and
    category, this is still so after a [create_listing], [update_listing],
    [patch_status] or [delete_listing] that returns. *)
Theorem search_vector_stays_current (settings : Settings)
    (title description category : string) (price : Q)
    (images : option (list UploadFile)) (listing_id : Z)
    (update : ListingUpdate) (patch : ListingStatusPatch) user st :
  map_Forall (λ _ obj, search_vector_current obj) (listings st) →
  (∀ obj st',
     create_listing settings title description category price images user st
       = Return (obj, st') →
     map_Forall (λ _ obj, search_vector_current obj) (listings st')) ∧
  (∀ obj st',
     update_listing listing_id update user st = Return (obj, st') →
     map_Forall (λ _ obj, search_vector_current obj) (listings st')) ∧
  (∀ obj st',
     patch_status listing_id patch user st = Return (obj, st') →
     map_Forall (λ _ obj, search_vector_current obj) (listings st')) ∧
  (∀ u st',
     delete_listing listing_id user st = Return (u, st') →
     map_Forall (λ _ obj, search_vector_current obj) (listings st')).
Proof.
  intros Hall. repeat split.
  - intros obj st' H. pose proof H as (_ & -> & _)%create_listing_Return.
    apply map_Forall_insert_2; [|done].
    unfold Listings.create_listing in H. destruct (is_verified user); [|done].
    simpl in H. repeat case_bool_decide; [| |done]; by injection H as <- <-.
  - intros obj st' H. pose proof H as ->%update_listing_listings.
    pose proof H as (old & Hold & _)%update_listing_Return.
    apply map_Forall_insert_2; [|done].
    eapply update_listing_search_vector_current; [done..|by eapply Hall].
  - intros obj st' (old & Hold & _ & _ & -> & ->)%patch_status_Return. simpl.
    apply map_Forall_insert_2; [|done]. by eapply (Hall _ old).
  - intros u st' (old & _ & _ & _ & -> & _)%delete_listing_Return.
    by apply map_Forall_delete.
Qed.
End FurtherCreate.

Section FurtherListingExamples.
Import Listings.

Lemma get_listing_after_witness :
  ∃ obj st' u st'',
    patch_status 7 {| lsp_status := "SOLD" |} alice sample_state = Return (obj, st') ∧
    get_listing 7 st' = Return obj ∧
    delete_listing 7 alice sample_state = Return (u, st'') ∧
    get_listing 7 st'' = HTTPException 404 "Listing not found".
Proof.
  destruct (get_listing_after (λ q : Q, q) (λ f : string, f)
              (λ f subdir, "/uploads/" +:+ subdir +:+ "/" +:+ f)
              (λ subdir name, subdir +:+ "/" +:+ name)
              (λ key, "https://bucket.s3.amazonaws.com/" +:+ key)
              {| STORAGE_BACKEND := "LOCAL"; S3_BUCKET := None |}
              "Desk" "Oak desk" "furniture" (45 # 1) (Some ["desk.png"])
              7 (retitle "Red bike") {| lsp_status := "SOLD" |} alice sample_state)
    as (_ & _ & Hpatch & Hdelete).
  destruct (patch_status 7 {| lsp_status := "SOLD" |} alice sample_state)
    as [[obj st']|code detail] eqn:E; [|vm_compute in E; discriminate E].
  destruct (delete_listing 7 alice sample_state)
    as [[u st'']|code detail] eqn:E'; [|vm_compute in E'; discriminate E'].
  exists obj, st', u, st''. split; [reflexivity|].
  split; [apply (Hpatch obj st' eq_refl)|].
  split; [reflexivity|]. apply (Hdelete u st'' eq_refl).
Defined.

Lemma only_the_owner_changes_a_listing_witness :
  listings sample_state !! 7 = Some bike ∧
  owner_id bike ≠ User_id bob ∧
  update_listing_Q 7 (retitle "Red bike") bob sample_state
    = HTTPException 403 "Not owner" ∧
  patch_status 7 {| lsp_status := "SOLD" |} bob sample_state
    = HTTPException 403 "Not owner" ∧
  delete_listing 7 bob sample_state = HTTPException 403 "Not owner".
Proof.
  assert (listings sample_state !! 7 = Some bike) as Hbike by reflexivity.
  assert (owner_id bike ≠ User_id bob) as Hne by (vm_compute; discriminate).
  split; [exact Hbike|]. split; [exact Hne|].
  destruct (only_the_owner_changes_a_listing (λ q : Q, q) 7 (retitle "Red bike")
              {| lsp_status := "SOLD" |} bob sample_state bike Hbike)
    as [Hother _].
  exact (Hother Hne).
Defined.



Lemma search_vector_stays_current_witness :
  map_Forall (λ _ obj, search_vector_current obj) (listings sample_state) ∧
  ∃ obj st',
    update_listing_Q 7 (retitle "Red bike") alice sample_state = Return (obj, st') ∧
    map_Forall (λ _ obj, search_vector_current obj) (listings st').
Proof.
  assert (map_Forall (λ _ obj, search_vector_current obj) (listings sample_state))
    as Hall.
  { intros k obj Hk. unfold sample_state in Hk. simpl in Hk.
    apply lookup_singleton_Some in Hk as [_ <-]. reflexivity. }
  split; [exact Hall|].
  destruct (search_vector_stays_current (λ q : Q, q) (λ f : string, f)
              (λ f subdir, "/uploads/" +:+ subdir +:+ "/" +:+ f)
              (λ subdir name, subdir +:+ "/" +:+ name)
              (λ key, "https://bucket.s3.amazonaws.com/" +:+ key)
              {| STORAGE_BACKEND := "LOCAL"; S3_BUCKET := None |}
              "Desk" "Oak desk" "furniture" (45 # 1) (Some ["desk.png"])
              7 (retitle "Red bike") {| lsp_status := "SOLD" |} alice sample_state
              Hall) as (_ & Hupdate & _).
  destruct (update_listing_Q 7 (retitle "Red bike") alice sample_state)
    as [[obj st']|code detail] eqn:E; [|vm_compute in E; discriminate E].
  exists obj, st'. split; [reflexivity|]. apply (Hupdate obj st' E).
Defined.

Lemma repeated_requests_witness :
  ∃ obj st' st'',
    update_listing_Q 7 (retitle "Red bike") alice sample_state = Return (obj, st') ∧
    update_listing_Q 7 (retitle "Red bike") alice st' = Return (obj, st'') ∧
    listings st'' = listings st' ∧
    notifications st''
    = [notify_listing_updated 7 "alice"; notify_listing_updated 7 "alice"].
Proof.
  destruct (repeated_requests (λ q : Q, q) 7 (retitle "Red bike")
              {| lsp_status := "SOLD" |} alice sample_state) as [_ Hupdate].
  destruct (update_listing_Q 7 (retitle "Red bike") alice sample_state)
    as [[obj st']|code detail] eqn:E; [|vm_compute in E; discriminate E].
  destruct (Hupdate obj st' E) as (st'' & Hagain & Hlistings & Hnotes).
  exists obj, st', st''. split; [reflexivity|]. split; [exact Hagain|].
  split; [exact Hlistings|]. rewrite Hnotes.
  vm_compute in E. injection E as <- <-. reflexivity.
Defined.
End FurtherListingExamples.

(** * Settings and start-up *)

Section Configuration.
Import Listings Config.

Lemma prefix_skip p s :
  String.prefix p s = true → s = p +:+ skip (String.length p) s.
Proof.
  revert s. induction p as [|a p IH]; intros s; [done|].
  destruct s as [|b s]; simpl; [done|].
  destruct (ascii_dec a b) as [->|]; [|done].
  intros H. change (String b s = String b (p +:+ skip (String.length p) s)).
  f_equal. by apply IH.
Qed.

Lemma SQLALCHEMY_DATABASE_URI_postgres rest :
  SQLALCHEMY_DATABASE_URI ("postgres://" +:+ rest) = "postgresql://" +:+ rest.
Proof. destruct rest; vm_compute; reflexivity. Qed.

(** X17. [SQLALCHEMY_DATABASE_URI] rewrites the scheme and nothing else:
    a URL that starts with postgres:// comes back with postgresql:// in
    front of the same remainder, any other URL comes back unchanged; the
    result never starts with postgres://, and applying the property again
    changes nothing. *)
Theorem SQLALCHEMY_DATABASE_URI_scheme (DATABASE_URL : string) :
  (∀ rest, DATABASE_URL = "postgres://" +:+ rest →
           SQLALCHEMY_DATABASE_URI DATABASE_URL = "postgresql://" +:+ rest) ∧
  (startswith DATABASE_URL "postgres://" = false →
   SQLALCHEMY_DATABASE_URI DATABASE_URL = DATABASE_URL) ∧
  startswith (SQLALCHEMY_DATABASE_URI DATABASE_URL) "postgres://" = false ∧
  SQLALCHEMY_DATABASE_URI (SQLALCHEMY_DATABASE_URI DATABASE_URL)
  = SQLALCHEMY_DATABASE_URI DATABASE_URL.
Proof.
  assert (∀ url, startswith url "postgres://" = false →
                 SQLALCHEMY_DATABASE_URI url = url) as Hother.
  { intros url H. unfold SQLALCHEMY_DATABASE_URI. by rewrite H. }
  assert (startswith (SQLALCHEMY_DATABASE_URI DATABASE_URL) "postgres://" = false)
    as Hnever.
  { destruct (startswith DATABASE_URL "postgres://") eqn:E.
    - apply prefix_skip in E. rewrite E, SQLALCHEMY_DATABASE_URI_postgres.
      by vm_compute.
    - by rewrite Hother. }
  split; [|split; [|split]].
  - intros rest ->. apply SQLALCHEMY_DATABASE_URI_postgres.
  - apply Hother.
  - exact Hnever.
  - by apply Hother.
Qed.

(** ** Comma-separated settings *)






(** ** Lower case *)














(** ** The admin id *)


Lemma SQLALCHEMY_DATABASE_URI_scheme_witness :
  SQLALCHEMY_DATABASE_URI "postgres://u:p@db:5432/campus"
  = "postgresql://u:p@db:5432/campus" ∧
  SQLALCHEMY_DATABASE_URI "sqlite:///./dev.db" = "sqlite:///./dev.db".
Proof.
  split.
  - apply (proj1 (SQLALCHEMY_DATABASE_URI_scheme "postgres://u:p@db:5432/campus")
             "u:p@db:5432/campus").
    reflexivity.
  - apply (proj1 (proj2 (SQLALCHEMY_DATABASE_URI_scheme "sqlite:///./dev.db"))).
    reflexivity.
Defined.



End Configuration.
